(** * Ocean hazard admin portal: the map dashboard's filtering, replay,
      bucketing and export core

    A shallow embedding of [src/components/InteractiveMapDashboard.tsx].

    Modelling conventions.
    - A JavaScript string is a [string] of ASCII code units; [toLowerCase],
      [trim] and the class [\s] are their ASCII restrictions.
    - A time value (the result of [Date.prototype.getTime]) is [option Z]:
      [None] is NaN, [Some t] is an integral number of milliseconds.  The
      optional numbers [timeStart], [timeEnd] and [timeline] are [option Z]
      with [None] for [undefined].
    - A coordinate or a grid size is a rational [Q] read as the binary64
      number nearest to it; the division that finds a report's cell and
      the sum and product that give the cell's centre round as binary64
      arithmetic does ([Float64]).  The heat weight, a quotient of two
      counts, is kept as the exact rational.
    - A JavaScript [Map] is an association list in insertion order.
    - The parts of the host that the component calls ([Date] parsing and
      printing, number printing) are the fields of the class [Runtime]. *)

From Stdlib Require Import ZArith QArith Qround Qabs List Bool Lia Permutation FinFun.
From Stdlib Require Import Ascii String DecimalString DecimalZ.
Import ListNotations.

Local Open Scope string_scope.
Local Open Scope list_scope.
Local Open Scope Z_scope.

(** ** JavaScript string primitives used by the component *)

Module JS.

(** Members of the class [\s] (and of what [trim] strips) below U+0080. *)
Definition isWhiteSpace (c : ascii) : bool :=
  let n := nat_of_ascii c in
  ((9 <=? n) && (n <=? 13))%nat || (n =? 32)%nat.

Definition lowerChar (c : ascii) : ascii :=
  let n := nat_of_ascii c in
  if ((65 <=? n) && (n <=? 90))%nat then ascii_of_nat (n + 32) else c.

Fixpoint toLowerCase (s : string) : string :=
  match s with
  | EmptyString => EmptyString
  | String c s' => String (lowerChar c) (toLowerCase s')
  end.

Fixpoint trimStart (s : string) : string :=
  match s with
  | EmptyString => EmptyString
  | String c s' => if isWhiteSpace c then trimStart s' else s
  end.

Fixpoint trimEnd (s : string) : string :=
  match s with
  | EmptyString => EmptyString
  | String c s' =>
      match trimEnd s' with
      | EmptyString => if isWhiteSpace c then EmptyString else String c EmptyString
      | t => String c t
      end
  end.

Definition trim (s : string) : string := trimEnd (trimStart s).

(** [s.includes(c)] for a one-character needle. *)
Fixpoint includesChar (c : ascii) (s : string) : bool :=
  match s with
  | EmptyString => false
  | String d s' => Ascii.eqb c d || includesChar c s'
  end.

(** [s.replace(/c/g, r)]. *)
Fixpoint replaceAllChar (c : ascii) (r : string) (s : string) : string :=
  match s with
  | EmptyString => EmptyString
  | String d s' =>
      if Ascii.eqb c d then r ++ replaceAllChar c r s'
      else String d (replaceAllChar c r s')
  end.

(** [s.split(/[...]+/)] for a character class [sep]: the pieces between
    maximal runs of separators, with an empty first (last) piece when the
    string starts (ends) with a separator, and [[""]] for the empty
    string.  [cur] is the piece being read, [inSep] tells that the last
    character was a separator. *)
Fixpoint splitRuns (sep : ascii -> bool) (inSep : bool) (cur : string)
         (s : string) : list string :=
  match s with
  | EmptyString => [cur]
  | String c s' =>
      if sep c then
        if inSep then splitRuns sep true cur s'
        else cur :: splitRuns sep true EmptyString s'
      else splitRuns sep false (cur ++ String c EmptyString) s'
  end.

Definition split (sep : ascii -> bool) (s : string) : list string :=
  splitRuns sep false EmptyString s.

(** [Boolean(s)] for a string. *)
Definition truthyString (s : string) : bool :=
  match s with EmptyString => false | _ => true end.

(** [arr.join(sep)]. *)
Definition join (sep : string) (l : list string) : string :=
  String.concat sep l.

(** [arr.includes(x)] on an array of strings. *)
Definition includes (x : string) (l : list string) : bool :=
  existsb (String.eqb x) l.

(** Template rendering of an integral number of moderate size. *)
Definition showInt (z : Z) : string := NilEmpty.string_of_int (Z.to_int z).

(** Truthiness of an optional number: [undefined] and [0] are falsy. *)
Definition truthyNumber (n : option Z) : bool :=
  match n with
  | Some z => negb (z =? 0)
  | None => false
  end.

(** [a < b] and [a > b] where [a] may be NaN: both are false on NaN. *)
Definition lt (a : option Z) (b : Z) : bool :=
  match a with Some x => x <? b | None => false end.
Definition gt (a : option Z) (b : Z) : bool :=
  match a with Some x => x >? b | None => false end.

End JS.

(** ** The host: [Date] and number printing *)

Class Runtime := {
  (** [new Date(s).getTime()]; [None] is NaN (an invalid date). *)
  Date_getTime : string -> option Z;
  (** [toISOString] of a valid date. *)
  Date_toISOString : Z -> string;
  (** [String(x)] for a coordinate. *)
  Number_toString : Q -> string
}.

(** ** Data model *)

Inductive HazardStatus := unverified | under_review | verified | false_alarm.
Inductive HazardSource := citizen | sensor | social | official | other.

Definition HazardStatus_eqb (a b : HazardStatus) : bool :=
  match a, b with
  | unverified, unverified | under_review, under_review
  | verified, verified | false_alarm, false_alarm => true
  | _, _ => false
  end.

Definition HazardSource_eqb (a b : HazardSource) : bool :=
  match a, b with
  | citizen, citizen | sensor, sensor | social, social
  | official, official | other, other => true
  | _, _ => false
  end.

Definition statusName (s : HazardStatus) : string :=
  match s with
  | unverified => "unverified"
  | under_review => "under_review"
  | verified => "verified"
  | false_alarm => "false_alarm"
  end.

Definition sourceName (s : HazardSource) : string :=
  match s with
  | citizen => "citizen"
  | sensor => "sensor"
  | social => "social"
  | official => "official"
  | other => "other"
  end.

(** A union [T | "all"]. *)
Inductive OrAll (T : Type) := All | Only (v : T).
Arguments All {T}.
Arguments Only {T} v.

Module HazardReport.
Record t := mk {
  id : string;
  lat : Q;
  lng : Q;
  type : string;
  status : HazardStatus;
  source : HazardSource;
  timestamp : string;
  description : option string;
  mediaUrls : option (list string);
  title : option string;
  tags : option (list string);
  personName : option string;
  locationName : option string
}.
End HazardReport.

Module ActiveFilters.
Record t := mk {
  hazardType : string;
  status : OrAll HazardStatus;
  source : OrAll HazardSource;
  timeStart : option Z;
  timeEnd : option Z;
  heatmap : bool;
  clustering : bool;
  tagsQuery : option string
}.

Definition withTimeStart (v : option Z) (f : t) : t :=
  mk (hazardType f) (status f) (source f) v (timeEnd f)
     (heatmap f) (clustering f) (tagsQuery f).
Definition withTimeEnd (v : option Z) (f : t) : t :=
  mk (hazardType f) (status f) (source f) (timeStart f) v
     (heatmap f) (clustering f) (tagsQuery f).
Definition withTagsQuery (v : option string) (f : t) : t :=
  mk (hazardType f) (status f) (source f) (timeStart f) (timeEnd f)
     (heatmap f) (clustering f) v.
Definition withHeatmap (v : bool) (f : t) : t :=
  mk (hazardType f) (status f) (source f) (timeStart f) (timeEnd f)
     v (clustering f) (tagsQuery f).
End ActiveFilters.

Record TimeDomain := { dmin : Z; dmax : Z }.

(** ** Temporal domain ([timeDomain]) *)

(** The accumulators [min] and [max] start at [Infinity] and [-Infinity]. *)
Inductive Bound := Infinity | NegInfinity | Finite (z : Z).

Definition ltBound (t : Z) (b : Bound) : bool :=
  match b with
  | Infinity => true
  | NegInfinity => false
  | Finite m => t <? m
  end.

Definition gtBound (t : Z) (b : Bound) : bool :=
  match b with
  | Infinity => false
  | NegInfinity => true
  | Finite m => t >? m
  end.

Section Dashboard.
Context {RT : Runtime}.

Definition domainStep (acc : Bound * Bound) (r : HazardReport.t) : Bound * Bound :=
  match Date_getTime (HazardReport.timestamp r) with
  | None => acc
  | Some t =>
      (if ltBound t (fst acc) then Finite t else fst acc,
       if gtBound t (snd acc) then Finite t else snd acc)
  end.

Definition timeDomain (reports : list HazardReport.t) : option TimeDomain :=
  match reports with
  | [] => None
  | _ =>
      match fold_left domainStep reports (Infinity, NegInfinity) with
      | (Finite lo, Finite hi) => Some {| dmin := lo; dmax := hi |}
      | _ => None
      end
  end.

(** Initial state of [filters] and of [timeline]. *)
Definition initialFilters (reports : list HazardReport.t)
           (defaultHeatmap defaultCluster : bool) : ActiveFilters.t :=
  ActiveFilters.mk "all" All All
    (option_map dmin (timeDomain reports))
    (option_map dmax (timeDomain reports))
    defaultHeatmap defaultCluster (Some "").

Definition initialTimeline (reports : list HazardReport.t) : option Z :=
  option_map dmax (timeDomain reports).

(** ** Filter evaluator ([filteredReports]) *)

Definition isTagSeparator (c : ascii) : bool :=
  Ascii.eqb c "," || JS.isWhiteSpace c.

Definition needlesOf (q : string) : list string :=
  filter JS.truthyString (JS.split isTagSeparator (JS.toLowerCase q)).

Definition tagsPass (q : option string) (r : HazardReport.t) : bool :=
  match q with
  | None => true
  | Some query =>
      if JS.truthyString query
         && (0 <? length (JS.trim query))%nat then
        let needles := needlesOf query in
        match needles with
        | [] => true
        | _ =>
            let hay :=
              map JS.toLowerCase
                  (match HazardReport.tags r with Some l => l | None => [] end) in
            forallb (fun n => JS.includes n hay) needles
        end
      else true
  end.

Definition keep (filters : ActiveFilters.t) (timeline : option Z)
           (r : HazardReport.t) : bool :=
  if negb (ActiveFilters.hazardType filters =? "all")%string
     && negb (HazardReport.type r =? ActiveFilters.hazardType filters)%string
  then false else
  if match ActiveFilters.status filters with
     | All => false
     | Only s => negb (HazardStatus_eqb (HazardReport.status r) s)
     end
  then false else
  if match ActiveFilters.source filters with
     | All => false
     | Only s => negb (HazardSource_eqb (HazardReport.source r) s)
     end
  then false else
  let t0 := Date_getTime (HazardReport.timestamp r) in
  if JS.truthyNumber (ActiveFilters.timeStart filters)
     && match ActiveFilters.timeStart filters with
        | Some b => JS.lt t0 b
        | None => false
        end
  then false else
  if JS.truthyNumber (ActiveFilters.timeEnd filters)
     && match ActiveFilters.timeEnd filters with
        | Some b => JS.gt t0 b
        | None => false
        end
  then false else
  if match timeline with
     | Some c => JS.gt t0 c
     | None => false
     end
  then false else
  if negb (tagsPass (ActiveFilters.tagsQuery filters) r) then false else
  true.

Definition filteredReports (reports : list HazardReport.t)
           (filters : ActiveFilters.t) (timeline : option Z) : list HazardReport.t :=
  filter (keep filters timeline) reports.

End Dashboard.

(** ** Timeline replay (the play-loop effect) *)

Record Replay := { timeline : option Z; isPlaying : bool }.

(** [Math.max(1, Math.floor((max - min) / 120))]. *)
Definition replayStep (d : TimeDomain) : Z :=
  Z.max 1 ((dmax d - dmin d) / 120).

(** The updater passed to [setTimeline] by the interval callback; the
    second component tells whether it called [setIsPlaying(false)]. *)
Definition advance (d : TimeDomain) (prev : option Z) : option Z * bool :=
  match prev with
  | None => (Some (dmin d), false)
  | Some p =>
      let next := p + replayStep d in
      if next >=? dmax d then (Some (dmax d), true) else (Some next, false)
  end.

(** One firing of the interval.  The effect installs it only while
    [isPlaying], with a domain and a defined [timeline]. *)
Definition tick (dom : option TimeDomain) (s : Replay) : Replay :=
  match isPlaying s, dom, timeline s with
  | true, Some d, Some _ =>
      let '(t, stop) := advance d (timeline s) in
      {| timeline := t; isPlaying := if stop then false else isPlaying s |}
  | _, _, _ => s
  end.

Fixpoint ticks (n : nat) (dom : option TimeDomain) (s : Replay) : Replay :=
  match n with
  | O => s
  | S k => ticks k dom (tick dom s)
  end.

(** The other handlers that write the cursor or the playing flag. *)
Definition togglePlay (s : Replay) : Replay :=
  {| timeline := timeline s; isPlaying := negb (isPlaying s) |}.
Definition scrub (t0 : Z) (s : Replay) : Replay :=
  {| timeline := Some t0; isPlaying := isPlaying s |}.
Definition jumpLatest (d : TimeDomain) (s : Replay) : Replay :=
  {| timeline := Some (dmax d); isPlaying := isPlaying s |}.

(** ** Insertion-ordered maps with string keys *)

Module StrMap.
Section Ops.
Context {V : Type}.
Definition t := list (string * V).

Fixpoint get (k : string) (m : t) : option V :=
  match m with
  | [] => None
  | (k', v) :: m' => if (k =? k')%string then Some v else get k m'
  end.

Definition has (k : string) (m : t) : bool :=
  match get k m with Some _ => true | None => false end.

(** [set] keeps the position of a key that is present and appends a
    new one. *)
Fixpoint set (k : string) (v : V) (m : t) : t :=
  match m with
  | [] => [(k, v)]
  | (k', v') :: m' =>
      if (k =? k')%string then (k', v) :: m' else (k', v') :: set k v m'
  end.

Definition values (m : t) : list V := map snd m.
Definition keys (m : t) : list string := map fst m.
End Ops.
Arguments t : clear implicits.
End StrMap.

(** ** Binary64 arithmetic

    The coordinates and the grid sizes are JavaScript numbers.  A rational
    stands for the binary64 number nearest to it (so [6 # 100] is the
    literal [0.06], and a rational that is a binary64 number stands for
    itself), and [/], [*] and [+] on numbers round their exact result to
    the nearest binary64 number, ties to even.  Magnitudes stay below
    [2 ^ 1024]: overflow to an infinity is outside the model, and so are
    NaN and a division by zero. *)

Module Float64.

(** [2 ^ e] for any integer [e]. *)
Definition pow2 (e : Z) : Q :=
  if 0 <=? e then inject_Z (2 ^ e) else 1 # Z.to_pos (2 ^ (- e)).

(** The binade of a positive rational: the largest [e] with [2 ^ e <= x]. *)
Definition binade (x : Q) : Z :=
  let k := Z.log2 (Qnum x) - Z.log2 (Zpos (Qden x)) in
  if Qle_bool (pow2 k) x then k else k - 1.

(** The nearest integer, ties to the even one. *)
Definition nearestEven (x : Q) : Z :=
  let f := Qfloor x in
  match Qcompare (x - inject_Z f) (1 # 2) with
  | Lt => f
  | Gt => f + 1
  | Eq => if Z.even f then f else f + 1
  end.

(** The binary64 number nearest to [x]: 53 significant bits, and multiples
    of [2 ^ -1074] in the subnormal range. *)
Definition round (x : Q) : Q :=
  if Qeq_bool x 0 then 0%Q
  else
    let a := Qabs x in
    let e := Z.max (binade a - 52) (-1074) in
    let y := (inject_Z (nearestEven (a / pow2 e)) * pow2 e)%Q in
    Qred (if Qle_bool 0 x then y else - y)%Q.

Definition add (x y : Q) : Q := round (round x + round y).
Definition mul (x y : Q) : Q := round (round x * round y).
Definition div (x y : Q) : Q := round (round x / round y).

End Float64.

(** ** Grid cells *)

Definition Math_floor (x : Q) : Z := Qfloor x.

(** [gx = Math.floor(r.lng / gridSize)], [gy = Math.floor(r.lat / gridSize)]. *)
Definition cellOf (gridSize : Q) (r : HazardReport.t) : Z * Z :=
  (Math_floor (Float64.div (HazardReport.lng r) gridSize),
   Math_floor (Float64.div (HazardReport.lat r) gridSize)).

(** The template [`${gx}:${gy}`]. *)
Definition cellKey (c : Z * Z) : string :=
  JS.showInt (fst c) ++ ":" ++ JS.showInt (snd c).

(** [(gx + 0.5) * gridSize] and [(gy + 0.5) * gridSize]. *)
Definition centerLng (gridSize : Q) (c : Z * Z) : Q :=
  Float64.mul (Float64.add (inject_Z (fst c)) (1 # 2)) gridSize.
Definition centerLat (gridSize : Q) (c : Z * Z) : Q :=
  Float64.mul (Float64.add (inject_Z (snd c)) (1 # 2)) gridSize.

(** ** Heatmap ([heatPoints]) *)

Module HeatBucket.
Record t := mk { lat : Q; lng : Q; count : nat }.
End HeatBucket.

Module HeatPoint.
Record t := mk { lat : Q; lng : Q; weight : Q }.
End HeatPoint.

Definition heatGridSize : Q := 1 # 4.

Definition heatStep (buckets : StrMap.t HeatBucket.t) (r : HazardReport.t)
  : StrMap.t HeatBucket.t :=
  let c := cellOf heatGridSize r in
  let key := cellKey c in
  match StrMap.get key buckets with
  | Some b =>
      StrMap.set key
        (HeatBucket.mk (HeatBucket.lat b) (HeatBucket.lng b)
                       (HeatBucket.count b + 1)) buckets
  | None =>
      StrMap.set key
        (HeatBucket.mk (centerLat heatGridSize c) (centerLng heatGridSize c) 1)
        buckets
  end.

Definition heatBuckets (filtered : list HazardReport.t) : StrMap.t HeatBucket.t :=
  fold_left heatStep filtered [].

Definition heatMax (buckets : StrMap.t HeatBucket.t) : nat :=
  fold_left (fun m b => Nat.max m (HeatBucket.count b)) (StrMap.values buckets) 0%nat.

(** [b.count / max], the quotient of two counts, as the exact rational. *)
Definition ratio (n m : nat) : Q :=
  (inject_Z (Z.of_nat n) / inject_Z (Z.of_nat m))%Q.

Definition heatPoints (heatmap : bool) (filtered : list HazardReport.t)
  : list HeatPoint.t :=
  if negb heatmap then [] else
  let buckets := heatBuckets filtered in
  let max := heatMax buckets in
  if (max =? 0)%nat then [] else
  map (fun b => HeatPoint.mk (HeatBucket.lat b) (HeatBucket.lng b)
                             (ratio (HeatBucket.count b) max))
      (StrMap.values buckets).

(** ** Status colours and the dominant status of a cluster *)

Definition statusToColor (s : HazardStatus) : string :=
  match s with
  | unverified => "#f59e0b"
  | under_review => "#0ea5e9"
  | verified => "#10b981"
  | false_alarm => "#ef4444"
  end.

(** The [counts] object: one counter per status, all starting at 0. *)
Module Counts.
Definition t := HazardStatus -> nat.
Definition zero : t := fun _ => 0%nat.
(** [counts[s]++]. *)
Definition incr (c : t) (s : HazardStatus) : t :=
  fun k => if HazardStatus_eqb k s then (c k + 1)%nat else c k.
(** [Object.keys(counts)]: the keys in the order the literal lists them. *)
Definition keys : list HazardStatus :=
  [unverified; under_review; verified; false_alarm].
End Counts.

(** [arr.reduce(f)] without an initial value, on a non-empty array. *)
Definition reduce1 {A : Type} (f : A -> A -> A) (d : A) (l : list A) : A :=
  match l with
  | [] => d
  | x :: l' => fold_left f l' x
  end.

Definition dominantStatusIn (items : list HazardReport.t) : HazardStatus :=
  let counts :=
    fold_left (fun c r => Counts.incr c (HazardReport.status r)) items Counts.zero in
  reduce1 (fun a b => if (counts b <=? counts a)%nat then a else b)
          unverified Counts.keys.

(** ** Marker clustering ([renderClusteredMarkers]) *)

Module ClusterBucket.
Record t := mk { lat : Q; lng : Q; items : list HazardReport.t }.
End ClusterBucket.

Definition clusterGridSize : Q := 6 # 100.

Definition clusterStep (buckets : StrMap.t ClusterBucket.t) (r : HazardReport.t)
  : StrMap.t ClusterBucket.t :=
  let c := cellOf clusterGridSize r in
  let key := cellKey c in
  if negb (StrMap.has key buckets) then
    StrMap.set key
      (ClusterBucket.mk (centerLat clusterGridSize c)
                        (centerLng clusterGridSize c) [r]) buckets
  else
    match StrMap.get key buckets with
    | Some b =>
        StrMap.set key
          (ClusterBucket.mk (ClusterBucket.lat b) (ClusterBucket.lng b)
                            (ClusterBucket.items b ++ [r])) buckets
    | None => buckets
    end.

Definition clusterBuckets (reports : list HazardReport.t)
  : StrMap.t ClusterBucket.t :=
  fold_left clusterStep reports [].

(** What a rendered marker carries.  An individual marker shows one report
    at its own position; a cluster marker sits at the cell centre and shows
    the member count, a diameter, the colour of the dominant status and the
    first ten members. *)
Inductive MarkerNode :=
| ReportMarker (key : string) (position : Q * Q) (r : HazardReport.t)
| ClusterMarker (key : string) (position : Q * Q) (count : nat)
                (diameter : nat) (color : string)
                (listed : list HazardReport.t).

Definition markerCount (m : MarkerNode) : nat :=
  match m with
  | ReportMarker _ _ _ => 1
  | ClusterMarker _ _ count _ _ _ => count
  end.

(** The loaded Leaflet module; [None] is [null]. *)
Inductive LeafletModule := Leaflet.

Definition markerStep (acc : list MarkerNode * nat) (bucket : ClusterBucket.t)
  : list MarkerNode * nat :=
  let '(items, i) := acc in
  let count := List.length (ClusterBucket.items bucket) in
  match ClusterBucket.items bucket with
  | [r] =>
      (items ++ [ReportMarker (HazardReport.id r)
                   (HazardReport.lat r, HazardReport.lng r) r], i)
  | members =>
      let dominantStatus := dominantStatusIn members in
      let color := statusToColor dominantStatus in
      (items ++ [ClusterMarker ("c-" ++ JS.showInt (Z.of_nat i))
                   (ClusterBucket.lat bucket, ClusterBucket.lng bucket)
                   count (24 + Nat.min 18 count) color (firstn 10 members)],
       (i + 1)%nat)
  end.

Definition renderClusteredMarkers (L : option LeafletModule)
           (reports : list HazardReport.t) : option (list MarkerNode) :=
  match L with
  | None => None
  | Some _ =>
      Some (fst (fold_left markerStep
                   (StrMap.values (clusterBuckets reports)) ([], 0%nat)))
  end.

(** ** CSV export ([exportCSV]) *)

Definition safe (v : option string) : string :=
  match v with Some s => s | None => "" end.

(** The values that reach [csvEscape]. *)
Inductive Cell := CStr (s : string) | CNum (x : Q).

Definition newline : ascii := ascii_of_nat 10.
Definition quote : ascii := ascii_of_nat 34.
Definition comma : ascii := ascii_of_nat 44.

(** A thrown [RangeError]. *)
Inductive Exn := RangeError.

Section CsvExport.
Context {RT : Runtime}.

(** [String(v ?? "")]. *)
Definition String_ (v : Cell) : string :=
  match v with
  | CStr s => s
  | CNum x => Number_toString x
  end.

Definition csvEscape (v : Cell) : string :=
  let s := String_ v in
  if JS.includesChar comma s || JS.includesChar newline s
     || JS.includesChar quote s
  then String quote
         (JS.replaceAllChar quote (String quote (String quote EmptyString)) s
          ++ String quote EmptyString)
  else s.

(** [new Date(s).toISOString()]: throws on an invalid date. *)
Definition toISOString (s : string) : Exn + string :=
  match Date_getTime s with
  | None => inl RangeError
  | Some t => inr (Date_toISOString t)
  end.

Definition headers : list string :=
  ["id"; "title"; "type"; "status"; "source"; "timestamp"; "lat"; "lng";
   "locationName"; "personName"; "tags"; "description"].

Definition csvRow (r : HazardReport.t) : Exn + list Cell :=
  match toISOString (HazardReport.timestamp r) with
  | inl e => inl e
  | inr iso =>
      inr [CStr (HazardReport.id r);
           CStr (safe (HazardReport.title r));
           CStr (HazardReport.type r);
           CStr (statusName (HazardReport.status r));
           CStr (sourceName (HazardReport.source r));
           CStr iso;
           CNum (HazardReport.lat r);
           CNum (HazardReport.lng r);
           CStr (safe (HazardReport.locationName r));
           CStr (safe (HazardReport.personName r));
           CStr (JS.join "|"
                   (match HazardReport.tags r with Some l => l | None => [] end));
           CStr (safe (HazardReport.description r))]
  end.

(** [filteredReports.map(...)]: the first exception ends the map. *)
Fixpoint csvRows (filtered : list HazardReport.t) : Exn + list (list Cell) :=
  match filtered with
  | [] => inr []
  | r :: rest =>
      match csvRow r with
      | inl e => inl e
      | inr row =>
          match csvRows rest with
          | inl e => inl e
          | inr rows => inr (row :: rows)
          end
      end
  end.

Definition csvLine (row : list Cell) : string :=
  JS.join "," (map csvEscape row).

(** The text handed to the [Blob], or the exception that escapes. *)
Definition exportCSV (filtered : list HazardReport.t) : Exn + string :=
  match csvRows filtered with
  | inl e => inl e
  | inr rows =>
      inr (JS.join (String newline EmptyString)
             (JS.join "," headers :: map csvLine rows))
  end.

End CsvExport.

(** ** The rest of the component *)

From Stdlib Require Import Orders Mergesort Sorted.

(** *** Domain sync, slider range *)

(** The effect that follows a change of the domain:
    [setFilters(f => ({...f, timeStart: min, timeEnd: max}))] and
    [setTimeline(max)], both only when there is a domain. *)
Definition syncFilters (dom : option TimeDomain) (f : ActiveFilters.t)
  : ActiveFilters.t :=
  match dom with
  | Some d =>
      ActiveFilters.mk (ActiveFilters.hazardType f) (ActiveFilters.status f)
        (ActiveFilters.source f) (Some (dmin d)) (Some (dmax d))
        (ActiveFilters.heatmap f) (ActiveFilters.clustering f)
        (ActiveFilters.tagsQuery f)
  | None => f
  end.

Definition syncTimeline (dom : option TimeDomain) (cursor : option Z) : option Z :=
  match dom with
  | Some d => Some (dmax d)
  | None => cursor
  end.

(** [a ?? b]. *)
Definition orElse {A : Type} (a : option A) (b : A) : A :=
  match a with Some x => x | None => b end.

(** [sliderRange]; [now1] and [now2] are the two readings of [Date.now()]. *)
Definition sliderRange (filters : ActiveFilters.t) (dom : option TimeDomain)
           (now1 now2 : Z) : Z * Z :=
  (orElse (ActiveFilters.timeStart filters)
          (orElse (option_map dmin dom) (now1 - 1000 * 60 * 60 * 24 * 30)),
   orElse (ActiveFilters.timeEnd filters)
          (orElse (option_map dmax dom) now2)).

(** *** Density colours and the heat layer *)

Definition densityColor (w : Q) : string :=
  if Qle_bool (66 # 100) w then "#ef4444"
  else if Qle_bool (33 # 100) w then "#f59e0b"
  else "#10b981".

(** [Math.round]: the nearest integer, halves upwards. *)
Definition Math_round (x : Q) : Z := Qfloor (x + (1 # 2)).

(** [a < b] on numbers. *)
Definition Qlt_bool (a b : Q) : bool := negb (Qle_bool b a).

(** [Math.max] and [Math.min] of two numbers. *)
Definition Math_max (a b : Q) : Q := if Qle_bool a b then b else a.
Definition Math_min (a b : Q) : Q := if Qle_bool a b then a else b.

Section HeatColor.
Context {RT : Runtime}.

(** [heatColor(weight, alpha)]. *)
Definition heatColor (weight alpha : Q) : string :=
  let w := Math_max 0 (Math_min 1 weight) in
  if Qlt_bool w (33 # 100) then "rgba(16,185,129," ++ Number_toString alpha ++ ")"
  else if Qlt_bool w (66 # 100) then "rgba(234,179,8," ++ Number_toString alpha ++ ")"
  else "rgba(239,68,68," ++ Number_toString alpha ++ ")".

End HeatColor.

(** A marker of the heat layer: its key, its position, the diameter and the
    colour of its disc. *)
Inductive HeatMarker :=
| HeatDisc (key : string) (position : Q * Q) (size : Z) (color : string).

Definition heatSize (m : HeatMarker) : Z :=
  match m with HeatDisc _ _ size _ => size end.
Definition heatDiscColor (m : HeatMarker) : string :=
  match m with HeatDisc _ _ _ color => color end.

(** [heatPoints.map((p, idx) => ...)]. *)
Fixpoint heatDiscs (idx : nat) (points : list HeatPoint.t) : list HeatMarker :=
  match points with
  | [] => []
  | p :: rest =>
      HeatDisc ("heat-" ++ JS.showInt (Z.of_nat idx))
               (HeatPoint.lat p, HeatPoint.lng p)
               (36 + Math_round (HeatPoint.weight p * 44))
               (densityColor (HeatPoint.weight p))
      :: heatDiscs (S idx) rest
  end.

(** The heat layer: nothing unless the heatmap is on and Leaflet is loaded. *)
Definition heatLayer (heatmap : bool) (L : option LeafletModule)
           (points : list HeatPoint.t) : list HeatMarker :=
  if heatmap then
    match L with
    | Some _ => heatDiscs 0 points
    | None => []
    end
  else [].

(** *** Status icons and the unclustered markers *)

(** What [L.divIcon] is given by [make(hex)]: the class, the fill colour
    that the html template carries, the size and the anchor. *)
Record DivIcon := {
  className : string; fill : string; iconSize : Z * Z; iconAnchor : Z * Z
}.

Definition makeIcon (hex : string) : DivIcon :=
  {| className := "status-pin"; fill := hex;
     iconSize := (14, 14); iconAnchor := (7, 14) |}.

Definition statusIcons (L : option LeafletModule) : option (HazardStatus -> DivIcon) :=
  match L with
  | None => None
  | Some _ =>
      Some (fun s =>
              match s with
              | unverified => makeIcon "#f59e0b"
              | under_review => makeIcon "#0ea5e9"
              | verified => makeIcon "#10b981"
              | false_alarm => makeIcon "#ef4444"
              end)
  end.

(** The markers layer with clustering off:
    [leafletRef.current && filteredReports.map(...)]. *)
Definition plainMarkers (L : option LeafletModule)
           (filtered : list HazardReport.t) : option (list MarkerNode) :=
  match L with
  | None => None
  | Some _ =>
      Some (map (fun r => ReportMarker (HazardReport.id r)
                            (HazardReport.lat r, HazardReport.lng r) r)
                filtered)
  end.

(** The markers layer. *)
Definition markersLayer (filters : ActiveFilters.t) (L : option LeafletModule)
           (filtered : list HazardReport.t) : option (list MarkerNode) :=
  if ActiveFilters.clustering filters then renderClusteredMarkers L filtered
  else plainMarkers L filtered.

(** *** Text helpers *)

Definition upperChar (c : ascii) : ascii :=
  let n := nat_of_ascii c in
  if ((97 <=? n) && (n <=? 122))%nat then ascii_of_nat (n - 32) else c.

(** [s.charAt(0).toUpperCase() + s.slice(1)]. *)
Definition capitalize (s : string) : string :=
  match s with
  | EmptyString => EmptyString
  | String c rest => String (upperChar c) rest
  end.

Definition escapeChar (c : ascii) : string :=
  if Ascii.eqb c "&" then "&amp;"
  else if Ascii.eqb c "<" then "&lt;"
  else if Ascii.eqb c ">" then "&gt;"
  else if Ascii.eqb c quote then "&quot;"
  else String c EmptyString.

Fixpoint escapeText (s : string) : string :=
  match s with
  | EmptyString => EmptyString
  | String c rest => escapeChar c ++ escapeText rest
  end.

(** [escapeHTML(s)]: every ampersand, angle bracket and double quote of
    [s ?? ""] is replaced by its entity. *)
Definition escapeHTML (s : option string) : string := escapeText (safe s).

(** *** Select options *)

(** [Array.from(new Set(xs))]: the distinct strings, each at its first
    occurrence. *)
Fixpoint distinct (xs : list string) : list string :=
  match xs with
  | [] => []
  | x :: rest => x :: filter (fun y => negb (y =? x)%string) (distinct rest)
  end.

Module StringOrder <: TotalLeBool.
Definition t := string.
Definition leb := String.leb.
Theorem leb_total : forall a b, leb a b = true \/ leb b a = true.
Proof. exact String.leb_total. Qed.
End StringOrder.

Module StringSort := Sort StringOrder.

(** [arr.sort()] on strings: ascending code-unit order. *)
Definition sortStrings (xs : list string) : list string := StringSort.sort xs.

Definition uniqueTypes (reports : list HazardReport.t) : list string :=
  sortStrings (distinct (map HazardReport.type reports)).

Definition uniqueSources (reports : list HazardReport.t) : list string :=
  sortStrings (distinct (map (fun r => sourceName (HazardReport.source r)) reports)).

(** ** A reference host

    An executable instance of [Runtime], used to evaluate the component on
    concrete reports.  Dates are read and printed in the format that
    [toISOString] produces, [YYYY-MM-DDTHH:mm:ss.sssZ]; any other string is
    an invalid date here.  Numbers are printed as integers or as finite
    decimals. *)

Module RefHost.

Definition digit (c : ascii) : option Z :=
  let n := nat_of_ascii c in
  if ((48 <=? n) && (n <=? 57))%nat then Some (Z.of_nat (n - 48)) else None.

Fixpoint digitsFrom (acc : Z) (s : string) : option Z :=
  match s with
  | EmptyString => Some acc
  | String c s' =>
      match digit c with
      | Some d => digitsFrom (10 * acc + d) s'
      | None => None
      end
  end.

Definition number (s : string) : option Z :=
  match s with
  | EmptyString => None
  | _ => digitsFrom 0 s
  end.

Definition isLeap (y : Z) : bool :=
  ((y mod 4 =? 0) && negb (y mod 100 =? 0)) || (y mod 400 =? 0).

Definition daysInMonth (y m : Z) : Z :=
  if m =? 2 then (if isLeap y then 29 else 28)
  else if (m =? 4) || (m =? 6) || (m =? 9) || (m =? 11) then 30 else 31.

(** Days from 1970-01-01 to the civil date [y-m-d]. *)
Definition daysFromCivil (y m d : Z) : Z :=
  let y' := if m <=? 2 then y - 1 else y in
  let era := y' / 400 in
  let yoe := y' - era * 400 in
  let doy := (153 * (m + (if 2 <? m then -3 else 9)) + 2) / 5 + d - 1 in
  let doe := yoe * 365 + yoe / 4 - yoe / 100 + doy in
  era * 146097 + doe - 719468.

Definition civilFromDays (z : Z) : Z * Z * Z :=
  let z := z + 719468 in
  let era := z / 146097 in
  let doe := z - era * 146097 in
  let yoe := (doe - doe / 1460 + doe / 36524 - doe / 146096) / 365 in
  let y := yoe + era * 400 in
  let doy := doe - (365 * yoe + yoe / 4 - yoe / 100) in
  let mp := (5 * doy + 2) / 153 in
  let d := doy - (153 * mp + 2) / 5 + 1 in
  let m := if mp <? 10 then mp + 3 else mp - 9 in
  (if m <=? 2 then y + 1 else y, m, d).

Definition msPerDay : Z := 86400000.

Definition sub (i n : nat) (s : string) : string := String.substring i n s.

Definition getTime (s : string) : option Z :=
  if negb (String.length s =? 24)%nat then None else
  if negb ((sub 4 1 s =? "-") && (sub 7 1 s =? "-") && (sub 10 1 s =? "T")
           && (sub 13 1 s =? ":") && (sub 16 1 s =? ":")
           && (sub 19 1 s =? ".") && (sub 23 1 s =? "Z"))%string
  then None else
  match number (sub 0 4 s), number (sub 5 2 s), number (sub 8 2 s),
        number (sub 11 2 s), number (sub 14 2 s), number (sub 17 2 s),
        number (sub 20 3 s) with
  | Some y, Some mo, Some d, Some h, Some mi, Some sec, Some ms =>
      if (1 <=? mo) && (mo <=? 12) && (1 <=? d) && (d <=? daysInMonth y mo)
         && (h <=? 23) && (mi <=? 59) && (sec <=? 59)
      then Some (daysFromCivil y mo d * msPerDay
                 + h * 3600000 + mi * 60000 + sec * 1000 + ms)
      else None
  | _, _, _, _, _, _, _ => None
  end.

(** [z] in decimal, left-padded with zeros to [n] digits. *)
Fixpoint pad (n : nat) (z : Z) : string :=
  match n with
  | O => EmptyString
  | S k => (pad k (z / 10)%Z ++ JS.showInt (z mod 10)%Z)%string
  end.

Definition toISOString (t : Z) : string :=
  let days := t / msPerDay in
  let rest := t mod msPerDay in
  let '(y, m, d) := civilFromDays days in
  let year :=
    if (0 <=? y) && (y <=? 9999) then pad 4 y
    else ((if (y <? 0)%Z then "-" else "+") ++ pad 6 (Z.abs y))%string in
  (year ++ "-" ++ pad 2 m ++ "-" ++ pad 2 d ++ "T"
    ++ pad 2 (rest / 3600000)%Z ++ ":" ++ pad 2 (rest / 60000 mod 60)%Z ++ ":"
    ++ pad 2 (rest / 1000 mod 60)%Z ++ "." ++ pad 3 (rest mod 1000)%Z ++ "Z")%string.

(** Digits of the fraction [n / d] with [0 <= n < d], while it lasts. *)
Fixpoint fraction (fuel : nat) (n d : Z) : string :=
  match fuel with
  | O => EmptyString
  | S k =>
      if n =? 0 then EmptyString
      else (JS.showInt (10 * n / d)%Z ++ fraction k (10 * n mod d)%Z d)%string
  end.

Definition numberToString (x : Q) : string :=
  let n := Qnum x in
  let d := Zpos (Qden x) in
  let a := Z.abs n in
  ((if (n <? 0)%Z then "-" else "") ++ JS.showInt (a / d)%Z
    ++ (if (a mod d =? 0)%Z then "" else "." ++ fraction 17 (a mod d)%Z d))%string.

#[export] Instance host : Runtime := {|
  Date_getTime := getTime;
  Date_toISOString := toISOString;
  Number_toString := numberToString
|}.

End RefHost.

(** ** Sample reports and filters *)

Module Sample.

Definition report (id ts : string) (lat lng : Q) (st : HazardStatus)
           (tags : option (list string)) (descr : option string)
  : HazardReport.t :=
  HazardReport.mk id lat lng "flood" st citizen ts descr None None tags
                  None None.

Definition t0 : Z := 1709251200000.

(** Three dated reports, one and five days apart. *)
Definition day0 := report "r0" "2024-03-01T00:00:00.000Z" 10 10 verified
                          (Some ["Flood"; "coast"]) None.
Definition day1 := report "r1" "2024-03-02T00:00:00.000Z" (1001 # 100)
                          (1001 # 100) unverified (Some ["flood"]) None.
(** The description [He said "flood now"]. *)
Definition quoted : string :=
  ("He said " ++ String quote ("flood now" ++ String quote EmptyString))%string.

Definition day5 := report "r2" "2024-03-06T00:00:00.000Z" 50 50 unverified
                          None (Some quoted).

(** A report whose timestamp is not a date. *)
Definition undated := report "bad" "not-a-date" 10 10 unverified None None.

(** A report from before the epoch. *)
Definition old := report "old" "1969-12-31T23:59:59.999Z" 0 0 verified None None.

(** A report on the equator at a given longitude. *)
Definition onEquator (id : string) (lng : Q) : HazardReport.t :=
  report id "2024-03-01T00:00:00.000Z" 0 lng unverified None None.

Definition allFilters : ActiveFilters.t :=
  ActiveFilters.mk "all" All All None None false true (Some "").

(** All-default selectors with both time bounds set. *)
Definition bounded : ActiveFilters.t :=
  ActiveFilters.withTimeStart (Some t0)
    (ActiveFilters.withTimeEnd (Some (t0 + 2 * 86400000)) allFilters).

End Sample.

(** * Vocabulary of the statements *)

(** ** Filtering and the temporal domain *)

(** The selectors and the tag rule, without any of the time rules. *)
Definition untimed (filters : ActiveFilters.t) : ActiveFilters.t :=
  ActiveFilters.withTimeStart None (ActiveFilters.withTimeEnd None filters).

(** [t] is not below the lower accumulator and not above the upper one. *)
Definition within (t : Z) (acc : Bound * Bound) : Prop :=
  ltBound t (fst acc) = false /\ gtBound t (snd acc) = false.

(** The accumulators never take the opposite infinity. *)
Definition sane (acc : Bound * Bound) : Prop :=
  fst acc <> NegInfinity /\ snd acc <> Infinity.

(** The accumulators are untouched, or finite with the lower one at most
    the upper one. *)
Definition ordered (acc : Bound * Bound) : Prop :=
  acc = (Infinity, NegInfinity)
  \/ exists a b, acc = (Finite a, Finite b) /\ a <= b.

(** ** Replay *)

(** Playing, and stopped, with the cursor at [c]. *)
Definition playingAt (c : Z) : Replay :=
  {| timeline := Some c; isPlaying := true |}.
Definition stoppedAt (c : Z) : Replay :=
  {| timeline := Some c; isPlaying := false |}.

(** The cursor stays at or below the domain's maximum under every handler
    that writes it. *)
Definition cursorInDomain (d : TimeDomain) (s : Replay) : Prop :=
  forall c, timeline s = Some c -> c <= dmax d.

(** ** Dominant status *)

(** The number of members of [items] with status [s]. *)
Definition memberCount (s : HazardStatus) (items : list HazardReport.t) : nat :=
  List.length (filter (fun r => HazardStatus_eqb (HazardReport.status r) s) items).

(** Position in the fixed order unverified, under_review, verified,
    false_alarm. *)
Definition precedence (s : HazardStatus) : nat :=
  match s with
  | unverified => 0
  | under_review => 1
  | verified => 2
  | false_alarm => 3
  end.

(** ** Tags *)

(** Every character of [s] satisfies [p]. *)
Fixpoint allChars (p : ascii -> bool) (s : string) : bool :=
  match s with
  | EmptyString => true
  | String c s' => p c && allChars p s'
  end.

(** The tags of a report, [r.tags ?? []]. *)
Definition tagsOf (r : HazardReport.t) : list string :=
  match HazardReport.tags r with Some l => l | None => [] end.

(** The report carries every needle, compared in lower case. *)
Definition carriesAll (needles : list string) (r : HazardReport.t) : Prop :=
  forall n, In n needles ->
            exists tag, In tag (tagsOf r) /\ JS.toLowerCase tag = n.







(** ** CSV fields *)

(** [b] is [s] with every double quote written twice. *)
Inductive Doubled : string -> string -> Prop :=
| Doubled_nil : Doubled EmptyString EmptyString
| Doubled_quote s b :
    Doubled s b -> Doubled (String quote s) (String quote (String quote b))
| Doubled_other c s b :
    c <> quote -> Doubled s b -> Doubled (String c s) (String c b).

(** The field holds a comma, a newline or a double quote. *)
Definition needsQuoting (s : string) : bool :=
  JS.includesChar comma s || JS.includesChar newline s || JS.includesChar quote s.

Section CsvVocabulary.
Context {RT : Runtime}.

(** The ISO rendering of a report's timestamp, when it is a date. *)
Definition isoOf (r : HazardReport.t) : string :=
  match Date_getTime (HazardReport.timestamp r) with
  | Some t => Date_toISOString t
  | None => EmptyString
  end.

(** The twelve columns of a report's row, in order. *)
Definition columns (r : HazardReport.t) : list string :=
  [HazardReport.id r;
   safe (HazardReport.title r);
   HazardReport.type r;
   statusName (HazardReport.status r);
   sourceName (HazardReport.source r);
   isoOf r;
   Number_toString (HazardReport.lat r);
   Number_toString (HazardReport.lng r);
   safe (HazardReport.locationName r);
   safe (HazardReport.personName r);
   JS.join "|" (tagsOf r);
   safe (HazardReport.description r)].

(** The text of a field after escaping. *)
Definition escaped (s : string) : string := csvEscape (CStr s).

End CsvVocabulary.

(** The escaped description: an opening double quote, He said, two double
    quotes, flood now, two double quotes, and the closing double quote. *)
Definition quotedField : string :=
  String quote
    ("He said "
     ++ String quote (String quote
         ("flood now"
          ++ String quote (String quote (String quote EmptyString)))))%string.

(** ** Grid cells *)

Definition colon : ascii := ":"%char.

Definition cell_eqb (a b : Z * Z) : bool :=
  (fst a =? fst b) && (snd a =? snd b).

Definition inCells (c : Z * Z) (cs : list (Z * Z)) : bool :=
  existsb (cell_eqb c) cs.

(** The distinct cells of a list, each at its first occurrence. *)
Fixpoint firstOccurrences (cs : list (Z * Z)) : list (Z * Z) :=
  match cs with
  | [] => []
  | c :: cs' => c :: filter (fun c' => negb (cell_eqb c' c)) (firstOccurrences cs')
  end.

(** A map with one entry per cell of [cs], keyed by the cell's key. *)
Definition entries {V : Type} (f : Z * Z -> V) (cs : list (Z * Z)) : StrMap.t V :=
  map (fun c => (cellKey c, f c)) cs.

(** The non-empty cells, in the order in which the reports reach them. *)
Definition cellsOf (gridSize : Q) (l : list HazardReport.t) : list (Z * Z) :=
  firstOccurrences (map (cellOf gridSize) l).

Definition inCell (gridSize : Q) (c : Z * Z) (r : HazardReport.t) : bool :=
  cell_eqb (cellOf gridSize r) c.

(** The reports of a cell, in the order of the sequence. *)
Definition members (gridSize : Q) (c : Z * Z) (l : list HazardReport.t)
  : list HazardReport.t :=
  filter (inCell gridSize c) l.

Definition cellCount (gridSize : Q) (c : Z * Z) (l : list HazardReport.t) : nat :=
  List.length (members gridSize c l).

(** The bucket of a cell after the cluster pass and after the heat pass. *)
Definition clusterEntry (l : list HazardReport.t) (c : Z * Z) : ClusterBucket.t :=
  ClusterBucket.mk (centerLat clusterGridSize c) (centerLng clusterGridSize c)
                   (members clusterGridSize c l).

Definition heatEntry (l : list HazardReport.t) (c : Z * Z) : HeatBucket.t :=
  HeatBucket.mk (centerLat heatGridSize c) (centerLng heatGridSize c)
                (cellCount heatGridSize c l).

(** The largest number of reports in one heat cell. *)
Definition maxCellCount (filtered : list HazardReport.t) : nat :=
  list_max (map (fun c => cellCount heatGridSize c filtered)
                (cellsOf heatGridSize filtered)).

(** The point of a heat cell. *)
Definition heatPointOf (filtered : list HazardReport.t) (c : Z * Z)
  : HeatPoint.t :=
  HeatPoint.mk (centerLat heatGridSize c) (centerLng heatGridSize c)
               (ratio (cellCount heatGridSize c filtered)
                      (maxCellCount filtered)).

(** [(g + 0.5) * 0.25] in binary64 is the rational [(g + 1/2) / 4]. *)
Definition heatCentreExact (g : Z) : bool :=
  Qeq_bool (Float64.mul (Float64.add (inject_Z g) (1 # 2)) (1 # 4))
           ((inject_Z g + (1 # 2)) * (1 # 4)).

(** ** Vocabulary of the further properties *)

Section DomainVocabulary.
Context {RT : Runtime}.

(** The finite accumulators are timestamps of reports of [l]. *)
Definition attainedIn (l : list HazardReport.t) (acc : Bound * Bound) : Prop :=
  (forall a, fst acc = Finite a ->
             exists r, In r l /\ Date_getTime (HazardReport.timestamp r) = Some a)
  /\ (forall b, snd acc = Finite b ->
                exists r, In r l /\ Date_getTime (HazardReport.timestamp r) = Some b).

(** [t0 <= c] as the cursor rule reads it: true on NaN. *)
Definition notAfter (c : Z) (r : HazardReport.t) : bool :=
  negb (JS.gt (Date_getTime (HazardReport.timestamp r)) c).

End DomainVocabulary.

(** The functional form of the marker loop: the markers of the buckets
    [bs], the next cluster index being [i]. *)
Fixpoint markersOf (i : nat) (bs : list ClusterBucket.t) : list MarkerNode :=
  match bs with
  | [] => []
  | b :: rest =>
      let '(ms, j) := markerStep ([], i) b in
      ms ++ markersOf j rest
  end.

(** What the marker of a cell with members [mem] and centre [centre] looks
    like. *)
Definition markerShape (centre : Q * Q) (mem : list HazardReport.t)
           (m : MarkerNode) : Prop :=
  (exists r, mem = [r]
             /\ m = ReportMarker (HazardReport.id r)
                                 (HazardReport.lat r, HazardReport.lng r) r)
  \/ ((2 <= List.length mem)%nat
      /\ exists key diameter,
           m = ClusterMarker key centre (List.length mem) diameter
                 (statusToColor (dominantStatusIn mem)) (firstn 10 mem)
           /\ diameter = (24 + Nat.min 18 (List.length mem))%nat
           /\ (26 <= diameter <= 42)%nat
           /\ (List.length (firstn 10 mem) <= 10)%nat).

(** The keys of the cluster markers, in order. *)
Definition clusterKeys (ms : list MarkerNode) : list string :=
  flat_map (fun m => match m with
                     | ClusterMarker key _ _ _ _ _ => [key]
                     | ReportMarker _ _ _ => []
                     end) ms.

Definition markerKey (m : MarkerNode) : string :=
  match m with
  | ReportMarker key _ _ => key
  | ClusterMarker key _ _ _ _ _ => key
  end.

Definition markerPosition (m : MarkerNode) : Q * Q :=
  match m with
  | ReportMarker _ position _ => position
  | ClusterMarker _ position _ _ _ _ => position
  end.

Section WindowVocabulary.
Context {RT : Runtime}.

(** The report is dated within [[a, b]], both ends included, or undated. *)
Definition inWindow (a b : Z) (r : HazardReport.t) : bool :=
  match Date_getTime (HazardReport.timestamp r) with
  | Some t => (a <=? t) && (t <=? b)
  | None => true
  end.

End WindowVocabulary.

(** * Properties *)

(** ** The reference host on examples *)

Example getTime_epoch : RefHost.getTime "1970-01-01T00:00:00.000Z" = Some 0.
Proof. reflexivity. Qed.

Example getTime_2024 :
  RefHost.getTime "2024-03-01T12:30:15.250Z" = Some 1709296215250.
Proof. vm_compute. reflexivity. Qed.

Example getTime_invalid : RefHost.getTime "not-a-date" = None.
Proof. reflexivity. Qed.

Example toISOString_2024 :
  RefHost.toISOString 1709296215250 = "2024-03-01T12:30:15.250Z".
Proof. vm_compute. reflexivity. Qed.

Example toISOString_before_epoch :
  RefHost.toISOString (-1) = "1969-12-31T23:59:59.999Z".
Proof. vm_compute. reflexivity. Qed.

Example numberToString_examples :
  RefHost.numberToString (1001 # 100) = "10.01"
  /\ RefHost.numberToString (-(5 # 2)) = "-2.5"
  /\ RefHost.numberToString 50 = "50".
Proof. vm_compute. repeat split. Qed.

(** ** The filter evaluator and the temporal domain *)

Section FilterFacts.
Context {RT : Runtime}.

Lemma lt_NaN (b : Z) : JS.lt None b = false.
Proof. reflexivity. Qed.

Lemma gt_NaN (b : Z) : JS.gt None b = false.
Proof. reflexivity. Qed.

Lemma keep_NaN filters cursor r :
  Date_getTime (HazardReport.timestamp r) = None ->
  keep filters cursor r = keep (untimed filters) None r.
Proof.
  intros Hnan. unfold keep. rewrite Hnan. cbn [untimed
    ActiveFilters.withTimeStart ActiveFilters.withTimeEnd
    ActiveFilters.hazardType ActiveFilters.status ActiveFilters.source
    ActiveFilters.timeStart ActiveFilters.timeEnd ActiveFilters.tagsQuery
    JS.truthyNumber].
  destruct (ActiveFilters.timeStart filters), (ActiveFilters.timeEnd filters),
    cursor; cbn [JS.lt JS.gt]; rewrite ?andb_false_r; reflexivity.
Qed.

(** A falsy lower bound is the same as no lower bound. *)
Lemma keep_timeStart_zero filters cursor r :
  keep (ActiveFilters.withTimeStart (Some 0) filters) cursor r
  = keep (ActiveFilters.withTimeStart None filters) cursor r.
Proof. reflexivity. Qed.

Lemma keep_timeEnd_zero filters cursor r :
  keep (ActiveFilters.withTimeEnd (Some 0) filters) cursor r
  = keep (ActiveFilters.withTimeEnd None filters) cursor r.
Proof. reflexivity. Qed.

(** *** What the domain fold computes *)

Lemma domainStep_within_keeps t acc r :
  within t acc -> within t (domainStep acc r).
Proof.
  unfold within, domainStep. intros [Hlo Hhi].
  destruct (Date_getTime (HazardReport.timestamp r)) as [u|]; [|tauto].
  destruct acc as [lo hi]; cbn [fst snd] in *. split.
  - destruct (ltBound u lo) eqn:E; [|assumption].
    destruct lo; cbn in *; try discriminate; lia.
  - destruct (gtBound u hi) eqn:E; [|assumption].
    destruct hi; cbn in *; try discriminate; lia.
Qed.

Lemma domainStep_within_new t acc r :
  Date_getTime (HazardReport.timestamp r) = Some t ->
  within t (domainStep acc r).
Proof.
  unfold within, domainStep. intros ->. destruct acc as [lo hi]; cbn [fst snd].
  split.
  - destruct (ltBound t lo) eqn:E; [cbn; lia | assumption].
  - destruct (gtBound t hi) eqn:E; [cbn; lia | assumption].
Qed.

Lemma fold_within_keeps t reports : forall acc,
  within t acc -> within t (fold_left domainStep reports acc).
Proof.
  induction reports as [|r rs IH]; intros acc H; cbn; [assumption|].
  apply IH, domainStep_within_keeps, H.
Qed.

Lemma fold_within t r reports : forall acc,
  In r reports ->
  Date_getTime (HazardReport.timestamp r) = Some t ->
  within t (fold_left domainStep reports acc).
Proof.
  induction reports as [|r' rs IH]; intros acc Hin Ht; [destruct Hin|].
  cbn. destruct Hin as [-> | Hin].
  - apply fold_within_keeps, domainStep_within_new, Ht.
  - apply IH; assumption.
Qed.

(** Every parseable timestamp lies in the domain, when there is one. *)
Lemma timeDomain_bounds reports d r t :
  timeDomain reports = Some d ->
  In r reports ->
  Date_getTime (HazardReport.timestamp r) = Some t ->
  dmin d <= t <= dmax d.
Proof.
  unfold timeDomain. intros Hd Hin Ht.
  destruct reports as [|r0 rs]; [discriminate|].
  pose proof (fold_within t r (r0 :: rs) (Infinity, NegInfinity) Hin Ht) as [Hlo Hhi].
  destruct (fold_left domainStep (r0 :: rs) (Infinity, NegInfinity)) as [lo hi].
  destruct lo as [| |a]; try discriminate. destruct hi as [| |b]; try discriminate.
  injection Hd as <-. cbn in *. lia.
Qed.

Lemma domainStep_ordered acc r : ordered acc -> ordered (domainStep acc r).
Proof.
  unfold domainStep. intros H.
  destruct (Date_getTime (HazardReport.timestamp r)) as [u|]; [|exact H].
  right. destruct H as [-> | (a & b & -> & Hab)]; cbn.
  - exists u, u. split; [reflexivity | lia].
  - destruct (Z.ltb_spec u a), (Z.gtb_spec u b);
      do 2 eexists; (split; [reflexivity | lia]).
Qed.

Lemma fold_ordered reports : forall acc,
  ordered acc -> ordered (fold_left domainStep reports acc).
Proof.
  induction reports as [|r rs IH]; intros acc H; cbn; [exact H|].
  apply IH, domainStep_ordered, H.
Qed.

Lemma timeDomain_ordered reports d :
  timeDomain reports = Some d -> dmin d <= dmax d.
Proof.
  unfold timeDomain. destruct reports as [|r0 rs]; [discriminate|].
  pose proof (fold_ordered (r0 :: rs) (Infinity, NegInfinity) (or_introl eq_refl))
    as [E | (a & b & E & Hab)]; rewrite E; [discriminate|].
  intros [= <-]. exact Hab.
Qed.

(** With no domain, no report of the store has a parseable timestamp. *)
Lemma fold_finite reports : forall acc,
  (exists a, fst acc = Finite a) -> (exists b, snd acc = Finite b) ->
  (exists a, fst (fold_left domainStep reports acc) = Finite a)
  /\ (exists b, snd (fold_left domainStep reports acc) = Finite b).
Proof.
  induction reports as [|r rs IH]; intros acc Ha Hb; cbn; [tauto|].
  apply IH; unfold domainStep;
    destruct (Date_getTime (HazardReport.timestamp r)) as [u|]; try assumption;
    cbn [fst snd].
  - destruct (ltBound u (fst acc)); [exists u; reflexivity | exact Ha].
  - destruct (gtBound u (snd acc)); [exists u; reflexivity | exact Hb].
Qed.

Lemma domainStep_sane acc r : sane acc -> sane (domainStep acc r).
Proof.
  unfold sane, domainStep. intros [Ha Hb].
  destruct (Date_getTime (HazardReport.timestamp r)) as [u|]; [|tauto].
  cbn [fst snd]. split.
  - destruct (ltBound u (fst acc)); [discriminate | assumption].
  - destruct (gtBound u (snd acc)); [discriminate | assumption].
Qed.

Lemma domainStep_finite acc r t :
  sane acc ->
  Date_getTime (HazardReport.timestamp r) = Some t ->
  (exists a, fst (domainStep acc r) = Finite a)
  /\ (exists b, snd (domainStep acc r) = Finite b).
Proof.
  unfold sane, domainStep. intros [Ha Hb] ->. cbn [fst snd]. split.
  - destruct (fst acc) as [| |a]; cbn; [eauto | contradiction |].
    destruct (t <? a); eauto.
  - destruct (snd acc) as [| |b]; cbn; [contradiction | eauto |].
    destruct (t >? b); eauto.
Qed.

Lemma fold_finite_in r t reports : forall acc,
  sane acc -> In r reports ->
  Date_getTime (HazardReport.timestamp r) = Some t ->
  (exists a, fst (fold_left domainStep reports acc) = Finite a)
  /\ (exists b, snd (fold_left domainStep reports acc) = Finite b).
Proof.
  induction reports as [|x l IH]; intros acc Hs Hl Ht; [destruct Hl|].
  cbn. destruct Hl as [-> | Hl].
  - destruct (domainStep_finite acc r t Hs Ht) as [Ha Hb].
    apply fold_finite; assumption.
  - apply IH; [apply domainStep_sane, Hs | assumption | assumption].
Qed.

Lemma timeDomain_none reports r :
  timeDomain reports = None ->
  In r reports ->
  Date_getTime (HazardReport.timestamp r) = None.
Proof.
  unfold timeDomain. intros Hd Hin.
  destruct reports as [|r0 rs]; [destruct Hin|].
  destruct (Date_getTime (HazardReport.timestamp r)) as [t|] eqn:Ht; [|reflexivity].
  exfalso.
  assert (sane (Infinity, NegInfinity)) as Hs by (split; discriminate).
  destruct (fold_finite_in r t (r0 :: rs) _ Hs Hin Ht) as [[a Ha] [b Hb]].
  destruct (fold_left domainStep (r0 :: rs) (Infinity, NegInfinity)) as [lo hi].
  cbn in Ha, Hb. subst. discriminate.
Qed.

End FilterFacts.

Lemma filter_all {A : Type} (f : A -> bool) (l : list A) :
  (forall x, In x l -> f x = true) -> filter f l = l.
Proof.
  induction l as [|x l IH]; intros H; cbn; [reflexivity|].
  rewrite (H x (or_introl eq_refl)), IH; [reflexivity|].
  intros y Hy. apply H. right. exact Hy.
Qed.

Lemma keep_initial {RT : Runtime} reports heat cluster r :
  In r reports ->
  keep (initialFilters reports heat cluster) (initialTimeline reports) r = true.
Proof.
  intros Hin. unfold keep, initialFilters, initialTimeline.
  cbn [ActiveFilters.hazardType ActiveFilters.status ActiveFilters.source
       ActiveFilters.timeStart ActiveFilters.timeEnd ActiveFilters.tagsQuery].
  change (negb ("all" =? "all")%string) with false. cbn [andb].
  destruct (timeDomain reports) as [d|] eqn:Hd; cbn [option_map].
  - destruct (Date_getTime (HazardReport.timestamp r)) as [t|] eqn:Ht.
    + pose proof (timeDomain_bounds reports d r t Hd Hin Ht) as [Hlo Hhi].
      cbn [JS.lt JS.gt].
      replace (t <? dmin d) with false by (symmetry; apply Z.ltb_ge; lia).
      replace (t >? dmax d) with false
        by (symmetry; rewrite Z.gtb_ltb; apply Z.ltb_ge; lia).
      rewrite !andb_false_r. reflexivity.
    + cbn [JS.lt JS.gt]. rewrite !andb_false_r. reflexivity.
  - reflexivity.
Qed.

(** C4.  Evaluating the initial, all-default filter state (every selector
    at "all", the time bounds at the domain's minimum and maximum, an empty
    tag query) with the cursor at the domain's maximum returns the report
    sequence itself: the same records in the same order.  The evaluator is a
    function of its arguments and builds a new sequence, so neither the store
    nor a report is written. *)
Theorem default_filters_identity {RT : Runtime}
        (reports : list HazardReport.t) (heat cluster : bool) :
  filteredReports reports (initialFilters reports heat cluster)
                  (initialTimeline reports) = reports.
Proof.
  unfold filteredReports. apply filter_all. intros r Hin.
  apply keep_initial, Hin.
Qed.

Example default_filters_identity_sample :
  filteredReports (RT := RefHost.host)
    [Sample.day5; Sample.undated; Sample.day0; Sample.old]
    (initialFilters (RT := RefHost.host)
       [Sample.day5; Sample.undated; Sample.day0; Sample.old] true true)
    (initialTimeline (RT := RefHost.host)
       [Sample.day5; Sample.undated; Sample.day0; Sample.old])
  = [Sample.day5; Sample.undated; Sample.day0; Sample.old]
  /\ timeDomain (RT := RefHost.host)
       [Sample.day5; Sample.undated; Sample.day0; Sample.old]
     = Some {| dmin := -1; dmax := Sample.t0 + 5 * 86400000 |}.
Proof. vm_compute. split; reflexivity. Qed.

(** C1, as the code has it.  A report whose timestamp does not parse is never
    excluded by a time rule: whatever [timeStart], [timeEnd] and the cursor
    are, it is kept exactly when it is kept with both bounds and the cursor
    absent, that is, when it passes the type, status, source and tag rules. *)
Theorem unparseable_timestamp_ignores_time_rules {RT : Runtime}
        (reports : list HazardReport.t) (filters : ActiveFilters.t)
        (cursor : option Z) (r : HazardReport.t) :
  Date_getTime (HazardReport.timestamp r) = None ->
  keep filters cursor r = keep (untimed filters) None r
  /\ (In r (filteredReports reports filters cursor)
      <-> In r (filteredReports reports (untimed filters) None)).
Proof.
  intros Hnan. pose proof (keep_NaN filters cursor r Hnan) as E.
  split; [exact E|]. unfold filteredReports. rewrite !filter_In, E. tauto.
Qed.

Lemma unparseable_timestamp_ignores_time_rules_witness :
  Date_getTime (Runtime := RefHost.host) (HazardReport.timestamp Sample.undated) = None
  /\ keep (RT := RefHost.host) Sample.bounded (Some Sample.t0) Sample.undated
     = keep (RT := RefHost.host) (untimed Sample.bounded) None Sample.undated.
Proof.
  split; [reflexivity|].
  apply (unparseable_timestamp_ignores_time_rules (RT := RefHost.host)
           [Sample.undated] Sample.bounded (Some Sample.t0) Sample.undated).
  reflexivity.
Defined.

(** C1 as stated fails: with both time bounds set, a report whose timestamp
    is not a date stays in the result. *)
Lemma unparseable_timestamp_kept_under_bounds :
  Date_getTime (Runtime := RefHost.host) (HazardReport.timestamp Sample.undated) = None
  /\ ActiveFilters.timeStart Sample.bounded = Some 1709251200000
  /\ ActiveFilters.timeEnd Sample.bounded = Some 1709424000000
  /\ filteredReports (RT := RefHost.host)
       [Sample.day0; Sample.undated; Sample.day5] Sample.bounded
       (Some 1709424000000)
     = [Sample.day0; Sample.undated].
Proof. vm_compute. repeat split; reflexivity. Qed.

(** C10.  A time bound equal to 0 is read as an absent bound: the evaluator
    gives the same result with [timeStart = 0] as with no [timeStart], and
    the same with [timeEnd = 0] as with no [timeEnd].  In particular, with
    every selector at "all" and only [timeStart = 0] set, every report is
    kept, also one dated before the epoch. *)
Theorem zero_time_bound_is_absent {RT : Runtime}
        (reports : list HazardReport.t) (filters : ActiveFilters.t)
        (cursor : option Z) :
  filteredReports reports (ActiveFilters.withTimeStart (Some 0) filters) cursor
  = filteredReports reports (ActiveFilters.withTimeStart None filters) cursor
  /\ filteredReports reports (ActiveFilters.withTimeEnd (Some 0) filters) cursor
     = filteredReports reports (ActiveFilters.withTimeEnd None filters) cursor
  /\ filteredReports reports
       (ActiveFilters.withTimeStart (Some 0) Sample.allFilters) None
     = reports.
Proof.
  unfold filteredReports. split; [|split].
  - apply filter_ext. intros r. apply keep_timeStart_zero.
  - apply filter_ext. intros r. apply keep_timeEnd_zero.
  - apply filter_all. intros r _. reflexivity.
Qed.

Example before_epoch_kept_with_zero_start :
  Date_getTime (Runtime := RefHost.host) (HazardReport.timestamp Sample.old) = Some (-1)
  /\ filteredReports (RT := RefHost.host) [Sample.old; Sample.day0]
       (ActiveFilters.withTimeStart (Some 0) Sample.allFilters) None
     = [Sample.old; Sample.day0]
  /\ filteredReports (RT := RefHost.host) [Sample.old; Sample.day0]
       (ActiveFilters.withTimeStart (Some 1) Sample.allFilters) None
     = [Sample.day0].
Proof. vm_compute. repeat split; reflexivity. Qed.

(** ** Timeline replay *)

Lemma replayStep_pos d : 1 <= replayStep d.
Proof. unfold replayStep. lia. Qed.

Lemma tick_playing d c :
  tick (Some d) (playingAt c)
  = if c + replayStep d >=? dmax d then stoppedAt (dmax d)
    else playingAt (c + replayStep d).
Proof.
  unfold tick, playingAt, stoppedAt, advance; cbn.
  destruct (c + replayStep d >=? dmax d); reflexivity.
Qed.

Lemma tick_stopped dom s : isPlaying s = false -> tick dom s = s.
Proof. unfold tick. intros ->. reflexivity. Qed.

Lemma ticks_stopped dom n : forall s, isPlaying s = false -> ticks n dom s = s.
Proof.
  induction n as [|n IH]; intros s H; cbn; [reflexivity|].
  rewrite tick_stopped by exact H. apply IH, H.
Qed.

Lemma ticks_add dom n m s : ticks (n + m) dom s = ticks m dom (ticks n dom s).
Proof.
  revert s. induction n as [|n IH]; intros s; cbn; [reflexivity | apply IH].
Qed.

Lemma tick_cursorInDomain d s :
  cursorInDomain d s -> cursorInDomain d (tick (Some d) s).
Proof.
  unfold cursorInDomain, tick, advance. intros H c.
  destruct (isPlaying s); [|apply H].
  destruct (timeline s) as [p|] eqn:Et; [|rewrite Et; discriminate].
  destruct (p + replayStep d >=? dmax d) eqn:E; cbn; intros [= <-]; [lia|].
  rewrite Z.geb_leb in E. apply Z.leb_gt in E. lia.
Qed.

Lemma handlers_cursorInDomain d s t0 :
  cursorInDomain d s ->
  cursorInDomain d (togglePlay s)
  /\ cursorInDomain d (jumpLatest d s)
  /\ (t0 <= dmax d -> cursorInDomain d (scrub t0 s)).
Proof.
  unfold cursorInDomain, togglePlay, jumpLatest, scrub; cbn. intros H.
  repeat split; [exact H | intros c [= <-]; lia | intros Ht c [= <-]; exact Ht].
Qed.

(** From a cursor at or below the maximum, playing reaches the maximum after
    a positive number [n] of ticks: before that the cursor has advanced by
    one step per tick and is below the maximum, and tick [n] is the first
    whose advanced value meets the maximum. *)
Lemma replay_run d : forall (m : nat) (c : Z),
  c <= dmax d -> dmax d - c <= Z.of_nat m ->
  exists n : nat,
    (0 < n)%nat
    /\ (forall k, (k < n)%nat ->
          ticks k (Some d) (playingAt c)
          = playingAt (c + Z.of_nat k * replayStep d))
    /\ (forall k, (0 < k < n)%nat -> c + Z.of_nat k * replayStep d < dmax d)
    /\ dmax d <= c + Z.of_nat n * replayStep d
    /\ ticks n (Some d) (playingAt c) = stoppedAt (dmax d).
Proof.
  pose proof (replayStep_pos d) as Hs.
  induction m as [|m IH]; intros c Hc Hm.
  - exists 1%nat. repeat split; [lia| | lia | lia |].
    + intros k Hk. replace k with 0%nat by lia.
      unfold playingAt; cbn [ticks]. f_equal. f_equal. lia.
    + cbn [ticks]. rewrite tick_playing.
      replace (c + replayStep d >=? dmax d) with true; [reflexivity|].
      symmetry. rewrite Z.geb_leb. apply Z.leb_le. lia.
  - destruct (c + replayStep d >=? dmax d) eqn:E.
    + exists 1%nat. rewrite Z.geb_leb in E. apply Z.leb_le in E.
      repeat split; [lia| | lia | lia |].
      * intros k Hk. replace k with 0%nat by lia.
      unfold playingAt; cbn [ticks]. f_equal. f_equal. lia.
      * cbn [ticks]. rewrite tick_playing.
        replace (c + replayStep d >=? dmax d) with true; [reflexivity|].
        symmetry. rewrite Z.geb_leb. apply Z.leb_le. lia.
    + pose proof E as E'. rewrite Z.geb_leb in E'. apply Z.leb_gt in E'.
      destruct (IH (c + replayStep d)) as (n & Hn & Hrun & Hbelow & Hmeet & Hend);
        [lia | lia |].
      exists (S n). repeat split.
      * lia.
      * intros [|k] Hk; [unfold playingAt; cbn [ticks]; f_equal; f_equal; lia|].
        cbn [ticks]. rewrite tick_playing, E, Hrun by lia.
        f_equal. lia.
      * intros [|k] Hk; [lia|].
        destruct k as [|k]; [lia|].
        specialize (Hbelow (S k) ltac:(lia)). lia.
      * lia.
      * cbn [ticks]. rewrite tick_playing, E. exact Hend.
Qed.

(** C3.  While playing, a tick advances the cursor by exactly
    [max(1, floor((max - min) / 120))], unless the advanced value meets or
    exceeds the domain's maximum: then the cursor is set to the maximum and
    playing stops.  Starting from any cursor at or below the maximum (such
    as the minimum), there is a first tick [n] at which this happens; up to
    it the cursor has advanced by one step per tick, from it on every tick
    leaves the cursor at the maximum and the state stopped, and the whole
    cursor sequence is non-decreasing. *)
Theorem replay_advances_and_stops (d : TimeDomain) (c : Z) :
  c <= dmax d ->
  replayStep d = Z.max 1 ((dmax d - dmin d) / 120)
  /\ tick (Some d) (playingAt c)
     = (if c + replayStep d >=? dmax d then stoppedAt (dmax d)
        else playingAt (c + replayStep d))
  /\ (exists n : nat,
        (0 < n)%nat
        /\ (forall k, (k < n)%nat ->
              ticks k (Some d) (playingAt c)
              = playingAt (c + Z.of_nat k * replayStep d))
        /\ (forall k, (0 < k < n)%nat ->
              c + Z.of_nat k * replayStep d < dmax d)
        /\ dmax d <= c + Z.of_nat n * replayStep d
        /\ (forall k, (n <= k)%nat ->
              ticks k (Some d) (playingAt c) = stoppedAt (dmax d)))
  /\ (forall k, exists a b,
        timeline (ticks k (Some d) (playingAt c)) = Some a
        /\ timeline (ticks (S k) (Some d) (playingAt c)) = Some b
        /\ a <= b).
Proof.
  intros Hc. pose proof (replayStep_pos d) as Hs.
  destruct (replay_run d (Z.to_nat (dmax d - c)) c Hc ltac:(lia))
    as (n & Hn & Hrun & Hbelow & Hmeet & Hend).
  assert (Hafter : forall k, (n <= k)%nat ->
             ticks k (Some d) (playingAt c) = stoppedAt (dmax d)).
  { intros k Hk. replace k with (n + (k - n))%nat by lia.
    rewrite ticks_add, Hend. apply ticks_stopped. reflexivity. }
  split; [reflexivity|]. split; [apply tick_playing|]. split.
  - exists n. repeat split; assumption.
  - intros k. destruct (Nat.lt_ge_cases (S k) n) as [Hlt | Hge].
    + exists (c + Z.of_nat k * replayStep d),
             (c + Z.of_nat (S k) * replayStep d).
      rewrite !Hrun by lia. cbn [timeline playingAt]. repeat split; lia.
    + destruct (Nat.lt_ge_cases k n) as [Hk | Hk].
      * exists (c + Z.of_nat k * replayStep d), (dmax d).
        rewrite Hrun by lia. rewrite Hafter by lia.
        cbn [timeline playingAt stoppedAt]. repeat split.
        destruct k as [|k]; [lia|].
        specialize (Hbelow (S k) ltac:(lia)). lia.
      * exists (dmax d), (dmax d). rewrite !Hafter by lia.
        cbn [timeline stoppedAt]. repeat split; lia.
Qed.

Lemma replay_advances_and_stops_witness :
  0 <= dmax {| dmin := 0; dmax := 1000 |}
  /\ tick (Some {| dmin := 0; dmax := 1000 |}) (playingAt 0) = playingAt 8.
Proof.
  split; [cbn; lia|].
  apply (replay_advances_and_stops {| dmin := 0; dmax := 1000 |} 0).
  cbn; lia.
Defined.

Example replay_from_minimum :
  ticks 124 (Some {| dmin := 0; dmax := 1000 |}) (playingAt 0) = playingAt 992
  /\ ticks 125 (Some {| dmin := 0; dmax := 1000 |}) (playingAt 0) = stoppedAt 1000
  /\ ticks 500 (Some {| dmin := 0; dmax := 1000 |}) (playingAt 0) = stoppedAt 1000.
Proof. vm_compute. repeat split; reflexivity. Qed.

(** ** Dominant status *)

Lemma HazardStatus_eqb_sym a b : HazardStatus_eqb a b = HazardStatus_eqb b a.
Proof. destruct a, b; reflexivity. Qed.

Lemma counts_fold (items : list HazardReport.t) : forall (c : Counts.t) k,
  fold_left (fun c r => Counts.incr c (HazardReport.status r)) items c k
  = (c k + memberCount k items)%nat.
Proof.
  unfold memberCount.
  induction items as [|r rs IH]; intros c k; cbn [fold_left filter]; [cbn; lia|].
  rewrite IH. unfold Counts.incr. rewrite (HazardStatus_eqb_sym k).
  destruct (HazardStatus_eqb (HazardReport.status r) k); cbn [List.length]; lia.
Qed.

(** C6.  The dominant status of a list of members has a maximal member
    count, and among the statuses with that maximal count it comes first in
    the order unverified, under_review, verified, false_alarm. *)
Theorem dominantStatusIn_first_maximal (items : list HazardReport.t) :
  (forall s, (memberCount s items <= memberCount (dominantStatusIn items) items)%nat)
  /\ (forall s, memberCount s items = memberCount (dominantStatusIn items) items ->
                (precedence (dominantStatusIn items) <= precedence s)%nat).
Proof.
  unfold dominantStatusIn, reduce1, Counts.keys. cbn [fold_left].
  rewrite !counts_fold. cbn [Counts.zero Nat.add].
  destruct (Nat.leb_spec (memberCount under_review items)
                         (memberCount unverified items)) as [H1 | H1];
  match goal with
  | |- context [(memberCount verified items <=? memberCount ?a items)%nat] =>
      destruct (Nat.leb_spec (memberCount verified items) (memberCount a items))
        as [H2 | H2]
  end;
  match goal with
  | |- context [(memberCount false_alarm items <=? memberCount ?a items)%nat] =>
      destruct (Nat.leb_spec (memberCount false_alarm items) (memberCount a items))
        as [H3 | H3]
  end;
  (split; intros s; destruct s; cbn [precedence]; lia).
Qed.

Example dominantStatusIn_tie :
  dominantStatusIn [Sample.day0; Sample.day1] = unverified
  /\ dominantStatusIn [Sample.day0; Sample.day1; Sample.day0] = verified
  /\ dominantStatusIn [] = unverified.
Proof. vm_compute. repeat split; reflexivity. Qed.

(** ** The tag rule *)

Lemma lowerChar_separator c : isTagSeparator (JS.lowerChar c) = isTagSeparator c.
Proof. destruct c as [[] [] [] [] [] [] [] []]; reflexivity. Qed.

Lemma toLowerCase_app a b :
  JS.toLowerCase (a ++ b) = (JS.toLowerCase a ++ JS.toLowerCase b)%string.
Proof. induction a as [|c a IH]; cbn; [reflexivity | now rewrite IH]. Qed.

Lemma truthy_toLowerCase s : JS.truthyString (JS.toLowerCase s) = JS.truthyString s.
Proof. destruct s; reflexivity. Qed.

Lemma filter_truthy_lower l :
  filter JS.truthyString (map JS.toLowerCase l)
  = map JS.toLowerCase (filter JS.truthyString l).
Proof.
  induction l as [|s l IH]; cbn; [reflexivity|].
  rewrite truthy_toLowerCase, IH. destruct (JS.truthyString s); reflexivity.
Qed.

(** Lower-casing before splitting gives the lower-cased pieces. *)
Lemma splitRuns_lower s : forall inSep cur,
  JS.splitRuns isTagSeparator inSep (JS.toLowerCase cur) (JS.toLowerCase s)
  = map JS.toLowerCase (JS.splitRuns isTagSeparator inSep cur s).
Proof.
  induction s as [|c s IH]; intros inSep cur; cbn [JS.toLowerCase JS.splitRuns];
    [reflexivity|].
  rewrite lowerChar_separator. destruct (isTagSeparator c).
  - destruct inSep; [apply IH|]. cbn [map]. f_equal. apply (IH true EmptyString).
  - rewrite <- IH, toLowerCase_app. reflexivity.
Qed.

Lemma needlesOf_tokens q :
  needlesOf q
  = map JS.toLowerCase (filter JS.truthyString (JS.split isTagSeparator q)).
Proof.
  unfold needlesOf, JS.split.
  rewrite <- filter_truthy_lower, <- splitRuns_lower. reflexivity.
Qed.

Lemma trimStart_empty s : JS.trimStart s = EmptyString -> allChars JS.isWhiteSpace s = true.
Proof.
  induction s as [|c s IH]; cbn; [reflexivity|].
  destruct (JS.isWhiteSpace c); [exact IH | discriminate].
Qed.

Lemma trimEnd_keeps_head c s :
  JS.isWhiteSpace c = false -> JS.trimEnd (String c s) <> EmptyString.
Proof.
  intros H. cbn. rewrite H. destruct (JS.trimEnd s); discriminate.
Qed.

Lemma trim_empty s : JS.trim s = EmptyString -> allChars JS.isWhiteSpace s = true.
Proof.
  unfold JS.trim. intros H. apply trimStart_empty.
  destruct (JS.trimStart s) as [|c t] eqn:E; [reflexivity|].
  assert (JS.isWhiteSpace c = false) as Hc.
  { clear H. induction s as [|d s IH]; cbn in E; [discriminate|].
    destruct (JS.isWhiteSpace d) eqn:Hd; [apply IH, E|].
    injection E as <- _. exact Hd. }
  destruct (trimEnd_keeps_head c t Hc H).
Qed.

Lemma whitespace_separator c : JS.isWhiteSpace c = true -> isTagSeparator c = true.
Proof. unfold isTagSeparator. intros ->. apply orb_true_r. Qed.

Lemma allChars_weaken (p q : ascii -> bool) s :
  (forall c, p c = true -> q c = true) ->
  allChars p s = true -> allChars q s = true.
Proof.
  intros Hpq. induction s as [|c s IH]; cbn; [reflexivity|].
  intros H. apply andb_true_iff in H as [Hc Hs].
  rewrite (Hpq c Hc), (IH Hs). reflexivity.
Qed.

(** A string of separators only has no non-empty piece. *)
Lemma splitRuns_separators sep s : forall inSep cur,
  allChars sep s = true ->
  filter JS.truthyString (JS.splitRuns sep inSep cur s)
  = filter JS.truthyString [cur].
Proof.
  induction s as [|c s IH]; intros inSep cur H; cbn [JS.splitRuns]; [reflexivity|].
  cbn in H. apply andb_true_iff in H as [Hc Hs]. rewrite Hc.
  destruct inSep; [apply IH, Hs|].
  cbn [filter]. rewrite (IH true EmptyString Hs). cbn.
  destruct (JS.truthyString cur); reflexivity.
Qed.

(** The outer guard of the tag branch holds whenever there is a needle. *)
Lemma needles_guard q :
  needlesOf q <> [] ->
  JS.truthyString q && (0 <? String.length (JS.trim q))%nat = true.
Proof.
  intros Hn. destruct (JS.truthyString q && (0 <? String.length (JS.trim q))%nat)
    eqn:G; [reflexivity|]. exfalso. apply Hn.
  rewrite needlesOf_tokens. unfold JS.split.
  rewrite splitRuns_separators; [reflexivity|].
  apply andb_false_iff in G as [G | G].
  - destruct q; [reflexivity | discriminate].
  - apply allChars_weaken with (p := JS.isWhiteSpace);
      [apply whitespace_separator|].
    apply trim_empty. destruct (JS.trim q); [reflexivity | discriminate].
Qed.

Lemma tagsPass_forallb q r :
  tagsPass (Some q) r
  = forallb (fun n => JS.includes n (map JS.toLowerCase (tagsOf r))) (needlesOf q).
Proof.
  unfold tagsPass. destruct (needlesOf q) as [|n ns] eqn:E.
  - destruct (JS.truthyString q && _); reflexivity.
  - rewrite needles_guard by (rewrite E; discriminate). reflexivity.
Qed.

Lemma includes_In x l : JS.includes x l = true <-> In x l.
Proof.
  unfold JS.includes. rewrite existsb_exists. split.
  - intros (y & Hy & E). apply String.eqb_eq in E. subst. exact Hy.
  - intros H. exists x. split; [exact H | apply String.eqb_refl].
Qed.

Lemma tagsPass_carriesAll q r :
  tagsPass (Some q) r = true <-> carriesAll (needlesOf q) r.
Proof.
  rewrite tagsPass_forallb, forallb_forall. unfold carriesAll.
  split; intros H n Hn.
  - apply H, includes_In, in_map_iff in Hn. destruct Hn as (tag & E & Ht). eauto.
  - apply includes_In, in_map_iff. destruct (H n Hn) as (tag & Ht & E). eauto.
Qed.

Lemma keep_tags {RT : Runtime} filters cursor q r :
  keep (ActiveFilters.withTagsQuery (Some q) filters) cursor r
  = keep (ActiveFilters.withTagsQuery None filters) cursor r
    && tagsPass (Some q) r.
Proof.
  unfold keep.
  cbn [ActiveFilters.withTagsQuery ActiveFilters.hazardType ActiveFilters.status
       ActiveFilters.source ActiveFilters.timeStart ActiveFilters.timeEnd
       ActiveFilters.tagsQuery].
  repeat match goal with
         | |- (if ?c then false else _) = (if ?c then false else _) && _ =>
             destruct c; [reflexivity|]
         end.
  change (tagsPass None r) with true. cbn [negb].
  destruct (tagsPass (Some q) r); reflexivity.
Qed.
















Example needlesOf_examples :
  needlesOf "flood, coast" = ["flood"; "coast"]
  /\ needlesOf "coast flood" = ["coast"; "flood"]
  /\ needlesOf " ,Flood,,  COAST , " = ["flood"; "coast"]
  /\ needlesOf " , " = []
  /\ JS.split isTagSeparator ",a b," = [EmptyString; "a"; "b"; EmptyString].
Proof. vm_compute. repeat split; reflexivity. Qed.

Example tag_query_sample :
  filteredReports (RT := RefHost.host)
    [Sample.day0; Sample.day1; Sample.day5]
    (ActiveFilters.withTagsQuery (Some "flood, coast") Sample.allFilters) None
  = [Sample.day0]
  /\ filteredReports (RT := RefHost.host)
       [Sample.day0; Sample.day1; Sample.day5]
       (ActiveFilters.withTagsQuery (Some "FLOOD") Sample.allFilters) None
     = [Sample.day0; Sample.day1]
  /\ filteredReports (RT := RefHost.host)
       [Sample.day0; Sample.day1; Sample.day5]
       (ActiveFilters.withTagsQuery (Some "flo") Sample.allFilters) None
     = [].
Proof. vm_compute. repeat split; reflexivity. Qed.

(** ** CSV export *)

Lemma replaceAll_Doubled s :
  Doubled s (JS.replaceAllChar quote (String quote (String quote EmptyString)) s).
Proof.
  induction s as [|c s IH]; cbn [JS.replaceAllChar]; [constructor|].
  destruct (Ascii.eqb quote c) eqn:E.
  - apply Ascii.eqb_eq in E. subst c. cbn [append]. constructor. exact IH.
  - apply Ascii.eqb_neq in E. constructor; [congruence | exact IH].
Qed.

Section CsvFacts.
Context {RT : Runtime}.

Lemma csvRow_ok r :
  Date_getTime (HazardReport.timestamp r) <> None ->
  exists row, csvRow r = inr row /\ map String_ row = columns r.
Proof.
  intros H. unfold csvRow, toISOString, columns, isoOf.
  destruct (Date_getTime (HazardReport.timestamp r)) as [t|]; [|contradiction].
  eexists. split; reflexivity.
Qed.

Lemma csvRows_ok filtered :
  Forall (fun r => Date_getTime (HazardReport.timestamp r) <> None) filtered ->
  exists rows, csvRows filtered = inr rows
               /\ map (map String_) rows = map columns filtered.
Proof.
  induction 1 as [|r rs Hr _ IH]; [exists []; split; reflexivity|].
  destruct (csvRow_ok r Hr) as (row & Erow & Ecols).
  destruct IH as (rows & Erows & Eall).
  exists (row :: rows). cbn. rewrite Erow, Erows, Ecols, Eall. split; reflexivity.
Qed.

Lemma csvRows_throws filtered r :
  In r filtered ->
  Date_getTime (HazardReport.timestamp r) = None ->
  csvRows filtered = inl RangeError.
Proof.
  intros Hin Hnan. induction filtered as [|x l IH]; [destruct Hin|].
  cbn. destruct Hin as [-> | Hin].
  - unfold csvRow, toISOString. rewrite Hnan. reflexivity.
  - destruct (csvRow x) as [[]|row]; [reflexivity|]. rewrite (IH Hin). reflexivity.
Qed.

Lemma csvEscape_String v : csvEscape v = escaped (String_ v).
Proof. reflexivity. Qed.

Lemma csvLine_columns row :
  csvLine row = JS.join "," (map escaped (map String_ row)).
Proof.
  unfold csvLine. f_equal. rewrite map_map. apply map_ext, csvEscape_String.
Qed.

Lemma escaped_spec s :
  (needsQuoting s = false -> escaped s = s)
  /\ (needsQuoting s = true ->
      exists body, escaped s = String quote (body ++ String quote EmptyString)
                   /\ Doubled s body).
Proof.
  unfold escaped, csvEscape, needsQuoting. cbn [String_]. split; intros ->.
  - reflexivity.
  - eexists. split; [reflexivity | apply replaceAll_Doubled].
Qed.

End CsvFacts.

(** X27.  When the timestamps of the filtered reports are dates, the export
    returns the header line followed by one line per filtered report, in
    order; a line is the report's twelve columns id, title, type, status,
    source, timestamp (ISO), lat, lng, locationName, personName, tags
    (joined by a pipe), description, each escaped, joined by commas.
    Escaping leaves a field without comma, double quote and newline as it
    is and otherwise wraps it in double quotes with every inner double quote
    written twice; the description [Sample.quoted], He said ... with the
    words flood now between double quotes, becomes [quotedField], the same
    between double quotes with each inner double quote written twice. *)
Theorem exportCSV_rows_and_quoting {RT : Runtime}
        (filtered : list HazardReport.t) :
  Forall (fun r => Date_getTime (HazardReport.timestamp r) <> None) filtered ->
  exportCSV filtered
  = inr (JS.join (String newline EmptyString)
           (JS.join "," headers
            :: map (fun r => JS.join "," (map escaped (columns r))) filtered))
  /\ headers = ["id"; "title"; "type"; "status"; "source"; "timestamp"; "lat";
                "lng"; "locationName"; "personName"; "tags"; "description"]
  /\ (forall s,
        (needsQuoting s = false -> escaped s = s)
        /\ (needsQuoting s = true ->
            exists body,
              escaped s = String quote (body ++ String quote EmptyString)
              /\ Doubled s body))
  /\ escaped Sample.quoted = quotedField.
Proof.
  intros Hok. split; [|split; [reflexivity|split; [apply escaped_spec|reflexivity]]].
  destruct (csvRows_ok filtered Hok) as (rows & Erows & Ecols).
  unfold exportCSV. rewrite Erows. do 3 f_equal.
  transitivity (map (fun cols => JS.join "," (map escaped cols))
                    (map (map String_) rows)).
  - rewrite map_map. apply map_ext, csvLine_columns.
  - rewrite Ecols, map_map. reflexivity.
Qed.

Lemma exportCSV_rows_and_quoting_witness :
  Forall (fun r => Date_getTime (Runtime := RefHost.host)
                     (HazardReport.timestamp r) <> None) [Sample.day5]
  /\ exportCSV (RT := RefHost.host) [Sample.day5]
     = inr ("id,title,type,status,source,timestamp,lat,lng,locationName,personName,tags,description"
            ++ String newline
                 ("r2,,flood,unverified,citizen,2024-03-06T00:00:00.000Z,50,50,,,,"
                  ++ quotedField))%string.
Proof.
  assert (Forall (fun r => Date_getTime (Runtime := RefHost.host)
                             (HazardReport.timestamp r) <> None) [Sample.day5]) as H
    by (repeat constructor; vm_compute; discriminate).
  split; [exact H|].
  apply (eq_trans (proj1 (exportCSV_rows_and_quoting (RT := RefHost.host)
                            [Sample.day5] H))).
  vm_compute. reflexivity.
Defined.

(** C9, on the failing input.  With the initial filters, a store holding
    the report with the quoted description and a report whose timestamp is
    not a date is filtered without loss: two filtered reports.  Exporting
    them returns no row at all: the [RangeError] of [toISOString] on the
    invalid date ends the export, also for the report whose timestamp is a
    date.  Without the second report the export returns the header line
    and the one row that the twelve columns and the quoting rule give, with
    the description as [quotedField]. *)
Theorem exportCSV_no_row_beside_unparseable_timestamp :
  filteredReports (RT := RefHost.host) [Sample.day5; Sample.undated]
    (initialFilters (RT := RefHost.host) [Sample.day5; Sample.undated] false true)
    (initialTimeline (RT := RefHost.host) [Sample.day5; Sample.undated])
  = [Sample.day5; Sample.undated]
  /\ exportCSV (RT := RefHost.host) [Sample.day5; Sample.undated]
     = inl RangeError
  /\ csvRow (RT := RefHost.host) Sample.undated = inl RangeError
  /\ exportCSV (RT := RefHost.host) [Sample.day5]
     = inr ("id,title,type,status,source,timestamp,lat,lng,locationName,personName,tags,description"
            ++ String newline
                 ("r2,,flood,unverified,citizen,2024-03-06T00:00:00.000Z,50,50,,,,"
                  ++ quotedField))%string.
Proof. vm_compute. repeat split; reflexivity. Qed.

(** C2, on the failing input.  With the initial filters, a store holding a
    dated report and one whose timestamp is not a date has a domain and is
    filtered without loss, but exporting the filtered reports throws: the
    [RangeError] of [toISOString] on the invalid date escapes [exportCSV] and
    no row is produced. *)
Theorem exportCSV_throws_on_unparseable_timestamp :
  timeDomain (RT := RefHost.host) [Sample.day0; Sample.undated]
  = Some {| dmin := Sample.t0; dmax := Sample.t0 |}
  /\ filteredReports (RT := RefHost.host) [Sample.day0; Sample.undated]
       (initialFilters (RT := RefHost.host) [Sample.day0; Sample.undated] false true)
       (initialTimeline (RT := RefHost.host) [Sample.day0; Sample.undated])
     = [Sample.day0; Sample.undated]
  /\ exportCSV (RT := RefHost.host)
       (filteredReports (RT := RefHost.host) [Sample.day0; Sample.undated]
          (initialFilters (RT := RefHost.host) [Sample.day0; Sample.undated] false true)
          (initialTimeline (RT := RefHost.host) [Sample.day0; Sample.undated]))
     = inl RangeError.
Proof. vm_compute. repeat split; reflexivity. Qed.

(** Whatever the host, one filtered report with an invalid date makes the
    export throw. *)
Lemma exportCSV_throws {RT : Runtime} filtered r :
  In r filtered ->
  Date_getTime (HazardReport.timestamp r) = None ->
  exportCSV filtered = inl RangeError.
Proof.
  intros Hin Hnan. unfold exportCSV.
  rewrite (csvRows_throws filtered r Hin Hnan). reflexivity.
Qed.

(** ** Grid cells and their keys *)

Lemma string_of_uint_no_colon d :
  JS.includesChar colon (NilEmpty.string_of_uint d) = false.
Proof.
  induction d; cbn [NilEmpty.string_of_uint JS.includesChar];
    try reflexivity; rewrite IHd; reflexivity.
Qed.

Lemma showInt_no_colon z : JS.includesChar colon (JS.showInt z) = false.
Proof.
  unfold JS.showInt. destruct (Z.to_int z); cbn [NilEmpty.string_of_int];
    [|cbn [JS.includesChar]; change (Ascii.eqb colon "-") with false; cbn [orb]];
    apply string_of_uint_no_colon.
Qed.

Lemma showInt_inj a b : JS.showInt a = JS.showInt b -> a = b.
Proof.
  unfold JS.showInt. intros E. apply DecimalZ.to_int_inj.
  apply (f_equal NilEmpty.int_of_string) in E.
  rewrite !NilEmpty.isi in E. now injection E.
Qed.

Lemma split_at_colon a : forall a' b b',
  JS.includesChar colon a = false -> JS.includesChar colon a' = false ->
  (a ++ String colon b)%string = (a' ++ String colon b')%string ->
  a = a' /\ b = b'.
Proof.
  induction a as [|c a IH]; intros [|c' a'] b b' Ha Ha' E;
    cbn [append JS.includesChar] in *.
  - injection E as ->. split; reflexivity.
  - injection E as <- _. rewrite Ascii.eqb_refl in Ha'. discriminate.
  - injection E as -> _. rewrite Ascii.eqb_refl in Ha. discriminate.
  - injection E as -> E. apply orb_false_iff in Ha as [_ Ha].
    apply orb_false_iff in Ha' as [_ Ha'].
    destruct (IH a' b b' Ha Ha' E) as [-> ->]. split; reflexivity.
Qed.

(** The key names the cell. *)
Lemma cellKey_inj c c' : cellKey c = cellKey c' -> c = c'.
Proof.
  unfold cellKey. destruct c as [x y], c' as [x' y']; cbn [fst snd]. intros E.
  apply split_at_colon in E as [Ex Ey]; try apply showInt_no_colon.
  apply showInt_inj in Ex, Ey. subst. reflexivity.
Qed.

Lemma cell_eqb_spec a b : reflect (a = b) (cell_eqb a b).
Proof.
  unfold cell_eqb. destruct a as [x y], b as [x' y']; cbn [fst snd].
  destruct (Z.eqb_spec x x'), (Z.eqb_spec y y'); cbn; constructor; congruence.
Qed.

Lemma cell_eqb_refl a : cell_eqb a a = true.
Proof. destruct (cell_eqb_spec a a); congruence. Qed.

Lemma cell_eqb_sym a b : cell_eqb a b = cell_eqb b a.
Proof. destruct (cell_eqb_spec a b), (cell_eqb_spec b a); congruence. Qed.

Lemma cellKey_eqb a b : (cellKey a =? cellKey b)%string = cell_eqb a b.
Proof.
  destruct (cell_eqb_spec a b) as [-> | N]; [apply String.eqb_refl|].
  apply String.eqb_neq. intros E. apply N, cellKey_inj, E.
Qed.

Lemma inCells_In c cs : inCells c cs = true <-> In c cs.
Proof.
  unfold inCells. rewrite existsb_exists. split.
  - intros (x & Hx & E). destruct (cell_eqb_spec c x); congruence.
  - intros H. exists c. split; [exact H | apply cell_eqb_refl].
Qed.

Lemma firstOccurrences_In c cs : In c (firstOccurrences cs) <-> In c cs.
Proof.
  induction cs as [|a cs IH]; cbn; [tauto|].
  rewrite filter_In, IH. destruct (cell_eqb_spec c a) as [-> | N]; cbn.
  - tauto.
  - split; [tauto|]. intros [E | H]; [congruence | tauto].
Qed.

Lemma firstOccurrences_NoDup cs : NoDup (firstOccurrences cs).
Proof.
  induction cs as [|a cs IH]; cbn; constructor.
  - rewrite filter_In, cell_eqb_refl. intros [_ H]. discriminate.
  - apply NoDup_filter, IH.
Qed.

Lemma inCells_filter_other x a cs :
  x <> a ->
  inCells x (filter (fun c' => negb (cell_eqb c' a)) cs) = inCells x cs.
Proof.
  intros N. apply eq_true_iff_eq. rewrite !inCells_In, filter_In.
  destruct (cell_eqb_spec x a); [congruence|]. cbn. tauto.
Qed.

Lemma firstOccurrences_snoc cs x :
  firstOccurrences (cs ++ [x])
  = if inCells x (firstOccurrences cs) then firstOccurrences cs
    else firstOccurrences cs ++ [x].
Proof.
  induction cs as [|a cs IH]; cbn [app firstOccurrences]; [reflexivity|].
  rewrite IH. unfold inCells at 2. cbn [existsb]. fold (inCells x).
  destruct (cell_eqb_spec x a) as [-> | N]; cbn [orb].
  - destruct (inCells a (firstOccurrences cs)); [reflexivity|].
    rewrite filter_app. cbn. rewrite cell_eqb_refl. cbn.
    rewrite app_nil_r. reflexivity.
  - fold (inCells x (filter (fun c' => negb (cell_eqb c' a)) (firstOccurrences cs))).
    rewrite (inCells_filter_other x a _ N).
    destruct (inCells x (firstOccurrences cs)); [reflexivity|].
    rewrite filter_app. cbn. destruct (cell_eqb_spec x a); [congruence|].
    reflexivity.
Qed.

(** *** Maps whose entries are indexed by cells *)

Section Entries.
Context {V : Type}.

Lemma get_entries (f : Z * Z -> V) c cs :
  StrMap.get (cellKey c) (entries f cs)
  = if inCells c cs then Some (f c) else None.
Proof.
  induction cs as [|a cs IH]; cbn; [reflexivity|].
  rewrite cellKey_eqb. destruct (cell_eqb_spec c a) as [-> | N]; cbn;
    [reflexivity | exact IH].
Qed.

Lemma set_entries_new (f : Z * Z -> V) c v cs :
  inCells c cs = false ->
  StrMap.set (cellKey c) v (entries f cs) = entries f cs ++ [(cellKey c, v)].
Proof.
  unfold entries.
  induction cs as [|a cs IH]; cbn [map StrMap.set inCells existsb app];
    [reflexivity|].
  rewrite cellKey_eqb. destruct (cell_eqb c a); cbn [orb]; [discriminate|].
  intros H. rewrite (IH H). reflexivity.
Qed.

Lemma set_entries_old (f : Z * Z -> V) c v cs :
  NoDup cs -> inCells c cs = true ->
  StrMap.set (cellKey c) v (entries f cs)
  = entries (fun c' => if cell_eqb c' c then v else f c') cs.
Proof.
  unfold entries.
  induction 1 as [|a cs Ha Hnd IH]; cbn [map StrMap.set inCells existsb];
    [discriminate|].
  rewrite cellKey_eqb, (cell_eqb_sym a c).
  destruct (cell_eqb_spec c a) as [-> | N]; cbn [orb].
  - intros _. f_equal. apply map_ext_in. intros c' Hc'.
    destruct (cell_eqb_spec c' a); [congruence | reflexivity].
  - intros H. rewrite (IH H). reflexivity.
Qed.

Lemma entries_ext (f g : Z * Z -> V) cs :
  (forall c, In c cs -> f c = g c) -> entries f cs = entries g cs.
Proof.
  intros H. apply map_ext_in. intros c Hc. rewrite (H c Hc). reflexivity.
Qed.

Lemma values_entries (f : Z * Z -> V) cs : StrMap.values (entries f cs) = map f cs.
Proof. unfold StrMap.values, entries. rewrite map_map. reflexivity. Qed.

Lemma keys_entries (f : Z * Z -> V) cs : StrMap.keys (entries f cs) = map cellKey cs.
Proof. unfold StrMap.keys, entries. rewrite map_map. reflexivity. Qed.

End Entries.

(** *** The cells of a report sequence *)


Lemma cellsOf_In (gridSize : Q) c l :
  In c (cellsOf gridSize l) <-> exists r, In r l /\ cellOf gridSize r = c.
Proof.
  unfold cellsOf. rewrite firstOccurrences_In, in_map_iff.
  split; intros (r & H1 & H2); exists r; tauto.
Qed.

Lemma cellsOf_NoDup (gridSize : Q) l : NoDup (cellsOf gridSize l).
Proof. apply firstOccurrences_NoDup. Qed.

Lemma cellsOf_snoc (gridSize : Q) l r :
  cellsOf gridSize (l ++ [r])
  = if inCells (cellOf gridSize r) (cellsOf gridSize l) then cellsOf gridSize l
    else cellsOf gridSize l ++ [cellOf gridSize r].
Proof. unfold cellsOf. rewrite map_app. apply firstOccurrences_snoc. Qed.

Lemma members_snoc (gridSize : Q) c l r :
  members gridSize c (l ++ [r])
  = members gridSize c l ++ (if inCell gridSize c r then [r] else []).
Proof. unfold members. rewrite filter_app. reflexivity. Qed.

Lemma members_In (gridSize : Q) c l r :
  In r (members gridSize c l) <-> In r l /\ cellOf gridSize r = c.
Proof.
  unfold members, inCell. rewrite filter_In.
  destruct (cell_eqb_spec (cellOf gridSize r) c); split; intros [? ?];
    split; congruence.
Qed.

Lemma members_outside (gridSize : Q) c l :
  inCells c (cellsOf gridSize l) = false -> members gridSize c l = [].
Proof.
  intros H. destruct (members gridSize c l) as [|r rs] eqn:E; [reflexivity|].
  assert (In r (members gridSize c l)) as Hr by (rewrite E; left; reflexivity).
  apply members_In in Hr as [Hr Hc].
  assert (inCells c (cellsOf gridSize l) = true) as H'
    by (apply inCells_In, cellsOf_In; eauto).
  congruence.
Qed.

(** Grouping by cell rearranges the sequence: the member lists of the cells,
    one after the other, are a permutation of it. *)
Lemma concat_filter_out (g : Z * Z -> list HazardReport.t) c cs :
  NoDup cs ->
  Permutation (List.concat (map g cs))
    ((if inCells c cs then g c else [])
     ++ List.concat (map g (filter (fun c' => negb (cell_eqb c' c)) cs))).
Proof.
  induction 1 as [|a cs Ha Hnd IH]; cbn [map List.concat filter inCells existsb];
    [reflexivity|].
  fold (inCells c cs). rewrite (cell_eqb_sym c a).
  destruct (cell_eqb_spec a c) as [-> | N]; cbn [negb orb].
  - replace (inCells c cs) with false in IH.
    + cbn [app] in IH. apply Permutation_app_head, IH.
    + symmetry. apply not_true_is_false. rewrite inCells_In. exact Ha.
  - cbn [map List.concat]. rewrite IH.
    rewrite !app_assoc. apply Permutation_app_tail, Permutation_app_comm.
Qed.

Lemma members_partition (gridSize : Q) l :
  Permutation
    (List.concat (map (fun c => members gridSize c l) (cellsOf gridSize l))) l.
Proof.
  induction l as [|r l IH]; [reflexivity|].
  unfold cellsOf. cbn [map firstOccurrences List.concat].
  fold (cellsOf gridSize l).
  set (c := cellOf gridSize r).
  assert (Hhead : members gridSize c (r :: l) = r :: members gridSize c l).
  { unfold members, inCell. cbn [filter]. fold c. rewrite cell_eqb_refl.
    reflexivity. }
  assert (Hrest : map (fun c' => members gridSize c' (r :: l))
                      (filter (fun c' => negb (cell_eqb c' c)) (cellsOf gridSize l))
                  = map (fun c' => members gridSize c' l)
                        (filter (fun c' => negb (cell_eqb c' c)) (cellsOf gridSize l))).
  { apply map_ext_in. intros c' Hc'. apply filter_In in Hc' as [_ Hc'].
    unfold members, inCell. cbn [filter]. fold c.
    rewrite (cell_eqb_sym c c').
    destruct (cell_eqb c' c); [discriminate | reflexivity]. }
  rewrite Hhead, Hrest. cbn [app]. constructor.
  eapply Permutation_trans; [|exact IH]. apply Permutation_sym.
  eapply Permutation_trans;
    [apply (concat_filter_out (fun c' => members gridSize c' l) c
              (cellsOf gridSize l) (cellsOf_NoDup gridSize l))|].
  apply Permutation_app_tail.
  destruct (inCells c (cellsOf gridSize l)) eqn:E; [reflexivity|].
  rewrite (members_outside gridSize c l E). reflexivity.
Qed.

Lemma cellCount_total (gridSize : Q) l :
  list_sum (map (fun c => cellCount gridSize c l) (cellsOf gridSize l)) = List.length l.
Proof.
  rewrite <- (Permutation_length (members_partition gridSize l)), length_concat,
    map_map.
  reflexivity.
Qed.


(** *** What the two bucketing passes compute *)

Lemma inCell_own gs r : inCell gs (cellOf gs r) r = true.
Proof. apply cell_eqb_refl. Qed.

Lemma inCell_other gs c r : c <> cellOf gs r -> inCell gs c r = false.
Proof.
  unfold inCell. intros N. destruct (cell_eqb_spec (cellOf gs r) c); congruence.
Qed.

Lemma members_snoc_other gs c l r :
  c <> cellOf gs r -> members gs c (l ++ [r]) = members gs c l.
Proof.
  intros N. rewrite members_snoc, (inCell_other gs c r N). apply app_nil_r.
Qed.

Lemma members_snoc_own gs l r :
  members gs (cellOf gs r) (l ++ [r]) = members gs (cellOf gs r) l ++ [r].
Proof. rewrite members_snoc, inCell_own. reflexivity. Qed.

Lemma not_inCells_neq c cs c' : inCells c cs = false -> In c' cs -> c' <> c.
Proof.
  intros H Hin ->. apply inCells_In in Hin. congruence.
Qed.

Lemma clusterStep_entries l r :
  clusterStep (entries (clusterEntry l) (cellsOf clusterGridSize l)) r
  = entries (clusterEntry (l ++ [r])) (cellsOf clusterGridSize (l ++ [r])).
Proof.
  unfold clusterStep, StrMap.has. rewrite get_entries, cellsOf_snoc.
  set (c := cellOf clusterGridSize r).
  destruct (inCells c (cellsOf clusterGridSize l)) eqn:E; cbn [negb].
  - rewrite set_entries_old by (apply cellsOf_NoDup || exact E).
    apply entries_ext. intros c' _. unfold clusterEntry.
    cbn [ClusterBucket.lat ClusterBucket.lng ClusterBucket.items].
    destruct (cell_eqb_spec c' c) as [-> | N].
    + unfold c. rewrite members_snoc_own. reflexivity.
    + rewrite members_snoc_other by exact N. reflexivity.
  - rewrite set_entries_new by exact E.
    unfold entries. rewrite map_app. cbn [map]. f_equal.
    + apply map_ext_in. intros c' Hc'. unfold clusterEntry.
      rewrite members_snoc_other by (eapply not_inCells_neq; eassumption).
      reflexivity.
    + subst c. unfold clusterEntry. rewrite members_snoc_own.
      rewrite (members_outside _ _ _ E). reflexivity.
Qed.

Lemma heatStep_entries l r :
  heatStep (entries (heatEntry l) (cellsOf heatGridSize l)) r
  = entries (heatEntry (l ++ [r])) (cellsOf heatGridSize (l ++ [r])).
Proof.
  unfold heatStep. rewrite get_entries, cellsOf_snoc.
  set (c := cellOf heatGridSize r).
  destruct (inCells c (cellsOf heatGridSize l)) eqn:E.
  - rewrite set_entries_old by (apply cellsOf_NoDup || exact E).
    apply entries_ext. intros c' _. unfold heatEntry, cellCount.
    cbn [HeatBucket.lat HeatBucket.lng HeatBucket.count].
    destruct (cell_eqb_spec c' c) as [-> | N].
    + unfold c. rewrite members_snoc_own, length_app. reflexivity.
    + rewrite members_snoc_other by exact N. reflexivity.
  - rewrite set_entries_new by exact E.
    unfold entries. rewrite map_app. cbn [map]. f_equal.
    + apply map_ext_in. intros c' Hc'. unfold heatEntry, cellCount.
      rewrite members_snoc_other by (eapply not_inCells_neq; eassumption).
      reflexivity.
    + subst c. unfold heatEntry, cellCount. rewrite members_snoc_own.
      rewrite (members_outside _ _ _ E). reflexivity.
Qed.

Lemma fold_clusterStep rs : forall l,
  fold_left clusterStep rs (entries (clusterEntry l) (cellsOf clusterGridSize l))
  = entries (clusterEntry (l ++ rs)) (cellsOf clusterGridSize (l ++ rs)).
Proof.
  induction rs as [|r rs IH]; intros l; cbn [fold_left].
  - rewrite app_nil_r. reflexivity.
  - rewrite clusterStep_entries, IH, <- app_assoc. reflexivity.
Qed.

Lemma fold_heatStep rs : forall l,
  fold_left heatStep rs (entries (heatEntry l) (cellsOf heatGridSize l))
  = entries (heatEntry (l ++ rs)) (cellsOf heatGridSize (l ++ rs)).
Proof.
  induction rs as [|r rs IH]; intros l; cbn [fold_left].
  - rewrite app_nil_r. reflexivity.
  - rewrite heatStep_entries, IH, <- app_assoc. reflexivity.
Qed.

(** The cluster buckets: one per non-empty cell, holding the cell's centre
    and its members. *)
Lemma clusterBuckets_entries reports :
  clusterBuckets reports
  = entries (clusterEntry reports) (cellsOf clusterGridSize reports).
Proof. apply (fold_clusterStep reports []). Qed.

(** The heat buckets: one per non-empty cell, holding the cell's centre and
    the number of its reports. *)
Lemma heatBuckets_entries filtered :
  heatBuckets filtered
  = entries (heatEntry filtered) (cellsOf heatGridSize filtered).
Proof. apply (fold_heatStep filtered []). Qed.

(** ** Clustering is a partition *)

Lemma markerStep_count bucket acc i :
  map markerCount (fst (markerStep (acc, i) bucket))
  = map markerCount acc ++ [List.length (ClusterBucket.items bucket)].
Proof.
  unfold markerStep.
  destruct (ClusterBucket.items bucket) as [|r [|r' rest]];
    cbn [fst]; rewrite map_app; reflexivity.
Qed.

Lemma fold_markerStep_count buckets : forall acc i,
  map markerCount (fst (fold_left markerStep buckets (acc, i)))
  = map markerCount acc
    ++ map (fun b => List.length (ClusterBucket.items b)) buckets.
Proof.
  induction buckets as [|b bs IH]; intros acc i; cbn [fold_left map].
  - rewrite app_nil_r. reflexivity.
  - destruct (markerStep (acc, i) b) as [acc' i'] eqn:E.
    rewrite IH. pose proof (markerStep_count b acc i) as H.
    rewrite E in H. cbn [fst] in H. rewrite H, <- app_assoc. reflexivity.
Qed.

Lemma in_entries {V : Type} (f : Z * Z -> V) cs k v :
  In (k, v) (entries f cs) <-> exists c, In c cs /\ k = cellKey c /\ v = f c.
Proof.
  unfold entries. rewrite in_map_iff. split.
  - intros (c & [= <- <-] & Hc). eauto.
  - intros (c & Hc & -> & ->). eauto.
Qed.

(** C5.  The cluster pass partitions the filtered reports by grid cell:
    the buckets have pairwise different keys; a bucket's members are the
    reports of one cell, in order, and there is at least one; a report lies
    in the member list of the bucket of its own cell and of no other bucket;
    the member lists together are a permutation of the reports; and the
    counts of the rendered markers (1 for a report marker, the member count
    for a cluster marker) add up to the number of reports. *)
Theorem cluster_buckets_partition (reports : list HazardReport.t) :
  NoDup (StrMap.keys (clusterBuckets reports))
  /\ (forall k b, In (k, b) (clusterBuckets reports) ->
        exists c, k = cellKey c
                  /\ ClusterBucket.items b = members clusterGridSize c reports
                  /\ ClusterBucket.items b <> [])
  /\ (forall r, In r reports ->
        (exists b, In (cellKey (cellOf clusterGridSize r), b) (clusterBuckets reports)
                   /\ In r (ClusterBucket.items b))
        /\ (forall k b, In (k, b) (clusterBuckets reports) ->
                        In r (ClusterBucket.items b) ->
                        k = cellKey (cellOf clusterGridSize r)))
  /\ Permutation
       (List.concat (map ClusterBucket.items
                         (StrMap.values (clusterBuckets reports))))
       reports
  /\ (exists markers,
        renderClusteredMarkers (Some Leaflet) reports = Some markers
        /\ map markerCount markers
           = map (fun b => List.length (ClusterBucket.items b))
                 (StrMap.values (clusterBuckets reports))
        /\ list_sum (map markerCount markers) = List.length reports).
Proof.
  rewrite clusterBuckets_entries.
  assert (Hperm : Permutation
            (List.concat (map ClusterBucket.items
               (StrMap.values (entries (clusterEntry reports)
                                       (cellsOf clusterGridSize reports)))))
            reports).
  { rewrite values_entries, map_map. apply members_partition. }
  split; [|split; [|split; [|split]]].
  - rewrite keys_entries. apply Finite.Injective_map_NoDup.
    + intros a b. apply cellKey_inj.
    + apply cellsOf_NoDup.
  - intros k b Hin. apply in_entries in Hin as (c & Hc & -> & ->).
    exists c. cbn [clusterEntry ClusterBucket.items]. repeat split.
    apply cellsOf_In in Hc as (r & Hr & <-). intros E.
    assert (In r (members clusterGridSize (cellOf clusterGridSize r) reports)) as H
      by (apply members_In; tauto).
    rewrite E in H. destruct H.
  - intros r Hr. split.
    + exists (clusterEntry reports (cellOf clusterGridSize r)). split.
      * apply in_entries. exists (cellOf clusterGridSize r).
        repeat split. apply cellsOf_In. eauto.
      * cbn [clusterEntry ClusterBucket.items]. apply members_In. tauto.
    + intros k b Hin Hmem. apply in_entries in Hin as (c & Hc & -> & ->).
      cbn [clusterEntry ClusterBucket.items] in Hmem.
      apply members_In in Hmem as [_ <-]. reflexivity.
  - exact Hperm.
  - unfold renderClusteredMarkers. rewrite clusterBuckets_entries.
    eexists. split; [reflexivity|].
    rewrite fold_markerStep_count. cbn [map app]. split; [reflexivity|].
    rewrite <- (Permutation_length Hperm), length_concat, map_map. reflexivity.
Qed.

Example cluster_three_reports :
  renderClusteredMarkers (Some Leaflet) [Sample.day0; Sample.day1; Sample.day5]
  = Some [ClusterMarker "c-0"
            (centerLat clusterGridSize (166, 166),
             centerLng clusterGridSize (166, 166))
            2 26 "#f59e0b" [Sample.day0; Sample.day1];
          ReportMarker "r2" (50%Q, 50%Q) Sample.day5].
Proof. vm_compute. reflexivity. Qed.

(** *** Binary64 rounding at the cell borders

    The literals [0.1] and [0.06] and the sum [0.1 + 0.2] as binary64
    numbers; ties go to the even neighbour, also below the smallest
    normal number. *)
Example round_examples :
  Float64.round (1 # 10) = 3602879701896397 # 36028797018963968
  /\ Float64.round (6 # 100) = 1080863910568919 # 18014398509481984
  /\ Float64.add (1 # 10) (2 # 10) = 1351079888211149 # 4503599627370496
  /\ Float64.round (inject_Z (2 ^ 53 + 1)) = inject_Z (2 ^ 53)
  /\ Float64.round (inject_Z (2 ^ 53 + 3)) = inject_Z (2 ^ 53 + 4)
  /\ Float64.round (- inject_Z (2 ^ 53 + 1)) = inject_Z (- 2 ^ 53)
  /\ (Float64.round (Float64.pow2 (-1075)) == 0)%Q
  /\ (Float64.round (3 * Float64.pow2 (-1075)) == Float64.pow2 (-1073))%Q
  /\ (Float64.round (Float64.pow2 (-1074)) == Float64.pow2 (-1074))%Q.
Proof. vm_compute. repeat split; reflexivity. Qed.

(** The quotient [-0.9 / 0.06] is just below [-15], so the cell is [-16]
    although the rational quotient is [-15]; and [0.06 / 0.06],
    [0.12 / 0.06], [0.18 / 0.06] are [1], [2], [3] although the binary64
    numbers [0.06] and [0.12] are below 6/100 and 12/100. *)
Example cell_border_examples :
  Float64.div (-9 # 10) (6 # 100) = -8444249301319681 # 562949953421312
  /\ Math_floor (Float64.div (-9 # 10) (6 # 100)) = -16
  /\ Qfloor ((-9 # 10) / (6 # 100)) = -15
  /\ Math_floor (Float64.div (-85 # 100) (6 # 100)) = -15
  /\ Math_floor (Float64.div (-95 # 100) (6 # 100)) = -16
  /\ map (fun x => Math_floor (Float64.div x (6 # 100)))
         [6 # 100; 12 # 100; 18 # 100; 24 # 100; 3 # 10; 42 # 100]
     = [1; 2; 3; 4; 5; 7]
  /\ Qfloor (Float64.round (6 # 100) / (6 # 100)) = 0
  /\ Qfloor (Float64.round (12 # 100) / (6 # 100)) = 1
  /\ map (fun x => Math_floor (Float64.div x (1 # 4)))
         [-1 # 4; -1 # 10; 0 # 1; 1 # 4; 1001 # 100; 728777 # 10000]
     = [-1; -1; 0; 1; 40; 291].
Proof. vm_compute. repeat split; reflexivity. Qed.

(** A centre of the 0.06 grid is the binary64 product: [(166 + 0.5) * 0.06]
    is the number nearest to 9.99, not 999/100. *)
Example cluster_centre_examples :
  centerLng clusterGridSize (166, 166) = 5623870034678907 # 562949953421312
  /\ centerLng clusterGridSize (-16, 0) = -4188347653454561 # 4503599627370496
  /\ centerLat clusterGridSize (-16, 0) = 1080863910568919 # 36028797018963968
  /\ centerLng heatGridSize (40, 40) = 81 # 8.
Proof. vm_compute. repeat split; reflexivity. Qed.

(** Reports at longitudes -0.9 and -0.85 lie in the cells -16 and -15 and
    are rendered as two report markers; reports at -0.9 and -0.95 share the
    cell -16 and are rendered as one cluster marker of two. *)
Example cluster_border_reports :
  renderClusteredMarkers (Some Leaflet)
    [Sample.onEquator "a" (-9 # 10); Sample.onEquator "b" (-85 # 100)]
  = Some [ReportMarker "a" (0%Q, -9 # 10) (Sample.onEquator "a" (-9 # 10));
          ReportMarker "b" (0%Q, -85 # 100) (Sample.onEquator "b" (-85 # 100))]
  /\ renderClusteredMarkers (Some Leaflet)
       [Sample.onEquator "a" (-9 # 10); Sample.onEquator "c" (-95 # 100)]
     = Some [ClusterMarker "c-0"
               (1080863910568919 # 36028797018963968,
                -4188347653454561 # 4503599627370496)
               2 26 "#f59e0b"
               [Sample.onEquator "a" (-9 # 10); Sample.onEquator "c" (-95 # 100)]].
Proof. vm_compute. split; reflexivity. Qed.

(** ** Heatmap weights *)

Lemma ratio_pos n m : (0 < n)%nat -> (0 < m)%nat -> (0 < ratio n m)%Q.
Proof.
  intros Hn Hm. unfold ratio. apply Qlt_shift_div_l.
  - change 0%Q with (inject_Z 0). rewrite <- Zlt_Qlt. lia.
  - rewrite Qmult_0_l. change 0%Q with (inject_Z 0). rewrite <- Zlt_Qlt. lia.
Qed.

Lemma ratio_le_1 n m : (n <= m)%nat -> (0 < m)%nat -> (ratio n m <= 1)%Q.
Proof.
  intros Hn Hm. unfold ratio. apply Qle_shift_div_r.
  - change 0%Q with (inject_Z 0). rewrite <- Zlt_Qlt. lia.
  - rewrite Qmult_1_l. rewrite <- Zle_Qle. lia.
Qed.

Lemma ratio_self m : (0 < m)%nat -> (ratio m m == 1)%Q.
Proof.
  intros Hm. unfold ratio. apply Qmult_inv_r.
  intros E. unfold Qeq in E. cbn [Qnum Qden inject_Z] in E. lia.
Qed.

Lemma fold_max_counts buckets : forall m,
  fold_left (fun m b => Nat.max m (HeatBucket.count b)) buckets m
  = Nat.max m (list_max (map HeatBucket.count buckets)).
Proof.
  induction buckets as [|b bs IH]; intros m; cbn [fold_left map list_max fold_right].
  - lia.
  - rewrite IH. fold (list_max (map HeatBucket.count bs)). lia.
Qed.

Lemma list_max_attained l : l <> [] -> In (list_max l) l.
Proof.
  induction l as [|x l IH]; [congruence|]. intros _.
  cbn [list_max fold_right]. fold (list_max l).
  destruct l as [|y l'].
  - cbn. left. lia.
  - destruct (Nat.max_spec x (list_max (y :: l'))) as [[_ ->] | [_ ->]].
    + right. apply IH. discriminate.
    + left. reflexivity.
Qed.

Lemma heatMax_entries filtered :
  heatMax (heatBuckets filtered) = maxCellCount filtered.
Proof.
  unfold heatMax, maxCellCount.
  rewrite heatBuckets_entries, values_entries, fold_max_counts, map_map.
  reflexivity.
Qed.

Lemma cellCount_pos gs c l : In c (cellsOf gs l) -> (0 < cellCount gs c l)%nat.
Proof.
  intros H. apply cellsOf_In in H as (r & Hr & <-).
  unfold cellCount.
  assert (In r (members gs (cellOf gs r) l)) as Hm by (apply members_In; tauto).
  destruct (members gs (cellOf gs r) l); [destruct Hm | cbn; lia].
Qed.

Lemma cellCount_le_max filtered c :
  In c (cellsOf heatGridSize filtered) ->
  (cellCount heatGridSize c filtered <= maxCellCount filtered)%nat.
Proof.
  intros H. unfold maxCellCount.
  pose proof (proj1 (list_max_le
    (map (fun c => cellCount heatGridSize c filtered) (cellsOf heatGridSize filtered))
    _) (Nat.le_refl _)) as Hall.
  rewrite Forall_forall in Hall. apply Hall, in_map_iff. eauto.
Qed.

Lemma heatPoints_cells filtered :
  heatPoints true filtered
  = map (heatPointOf filtered) (cellsOf heatGridSize filtered).
Proof.
  unfold heatPoints. cbn [negb]. rewrite heatMax_entries.
  destruct (Nat.eqb_spec (maxCellCount filtered) 0) as [E | _].
  - destruct (cellsOf heatGridSize filtered) as [|c cs] eqn:Ec; [reflexivity|].
    assert (In c (cellsOf heatGridSize filtered)) as Hc by (rewrite Ec; left; reflexivity).
    pose proof (cellCount_pos _ _ _ Hc). pose proof (cellCount_le_max _ _ Hc). lia.
  - rewrite heatBuckets_entries, values_entries, map_map. reflexivity.
Qed.

Lemma forallb_range (f : Z -> bool) (lo : Z) (n : nat) :
  forallb f (map (fun i => lo + Z.of_nat i) (seq 0 n)) = true ->
  forall z, lo <= z < lo + Z.of_nat n -> f z = true.
Proof.
  intros H z Hz. rewrite forallb_forall in H. apply H.
  apply in_map_iff. exists (Z.to_nat (z - lo)). split; [lia|].
  apply in_seq. lia.
Qed.

(** The heat grid's centres are exact for a cell index within 1024 of 0
    (coordinates within 256 degrees). *)
Lemma heat_centre_exact g :
  -1024 <= g < 1024 ->
  (Float64.mul (Float64.add (inject_Z g) (1 # 2)) (1 # 4)
   == (inject_Z g + (1 # 2)) * (1 # 4))%Q.
Proof.
  intros Hg. apply Qeq_bool_iff.
  apply (forallb_range heatCentreExact (-1024) 2048); [|lia].
  vm_compute. reflexivity.
Qed.

(** C7.  With the heatmap off, or with no filtered report, no point is
    emitted.  With the heatmap on, the points are those of the non-empty
    0.25-degree cells, one per cell, in the order in which the reports
    reach the cells.  A report's cell is the pair of the floors of its
    longitude and its latitude divided by 0.25; the cell's point lies at
    [((gy + 0.5) * 0.25, (gx + 0.5) * 0.25)], which for a cell index within
    1024 of 0 is exactly the rational [(g + 1/2) / 4]; the point's weight is
    the number of filtered reports of the cell divided by the largest such
    number over the cells.  A cell's number is at least 1 and at most the
    largest, so every weight is positive and at most 1; and when there is a
    filtered report some cell attains the largest number and its point has
    weight 1, the largest weight.  In particular three reports at (10, 10),
    (50, 50) and (10.01, 10.01) give the points (10.125, 10.125) of weight
    2/2 and (50.125, 50.125) of weight 1/2. *)
Theorem heatPoints_cells_and_weights
        (r : HazardReport.t) (rest filtered : list HazardReport.t)
        (heatmap : bool) :
  heatPoints false filtered = []
  /\ heatPoints heatmap [] = []
  /\ heatPoints true filtered
     = map (fun c =>
              HeatPoint.mk
                (Float64.mul (Float64.add (inject_Z (snd c)) (1 # 2)) (1 # 4))
                (Float64.mul (Float64.add (inject_Z (fst c)) (1 # 2)) (1 # 4))
                (inject_Z (Z.of_nat (cellCount heatGridSize c filtered))
                 / inject_Z (Z.of_nat (maxCellCount filtered)))%Q)
           (cellsOf heatGridSize filtered)
  /\ NoDup (cellsOf heatGridSize filtered)
  /\ (forall c, In c (cellsOf heatGridSize filtered)
                <-> exists x, In x filtered
                      /\ (Math_floor (Float64.div (HazardReport.lng x) (1 # 4)),
                          Math_floor (Float64.div (HazardReport.lat x) (1 # 4)))
                         = c)
  /\ (forall c,
        cellCount heatGridSize c filtered
        = List.length
            (filter (fun x =>
                       (Math_floor (Float64.div (HazardReport.lng x) (1 # 4))
                        =? fst c)
                       && (Math_floor (Float64.div (HazardReport.lat x) (1 # 4))
                           =? snd c))
                    filtered))
  /\ (forall c, In c (cellsOf heatGridSize filtered) ->
                (1 <= cellCount heatGridSize c filtered
                   <= maxCellCount filtered)%nat)
  /\ (exists c, In c (cellsOf heatGridSize (r :: rest))
                /\ cellCount heatGridSize c (r :: rest)
                   = maxCellCount (r :: rest))
  /\ (forall g, -1024 <= g < 1024 ->
                (Float64.mul (Float64.add (inject_Z g) (1 # 2)) (1 # 4)
                 == (inject_Z g + (1 # 2)) * (1 # 4))%Q)
  /\ (forall p, In p (heatPoints true filtered) ->
                (0 < HeatPoint.weight p)%Q /\ (HeatPoint.weight p <= 1)%Q)
  /\ (exists p, In p (heatPoints true (r :: rest))
                /\ (HeatPoint.weight p == 1)%Q
                /\ forall p', In p' (heatPoints true (r :: rest)) ->
                              (HeatPoint.weight p' <= HeatPoint.weight p)%Q)
  /\ heatPoints true [Sample.day0; Sample.day5; Sample.day1]
     = [HeatPoint.mk (81 # 8) (81 # 8) (2 # 2);
        HeatPoint.mk (401 # 8) (401 # 8) (1 # 2)].
Proof.
  split; [reflexivity|]. split; [destruct heatmap; reflexivity|].
  split; [apply heatPoints_cells|]. split; [apply cellsOf_NoDup|].
  split; [intros c; exact (cellsOf_In heatGridSize c filtered)|].
  split; [reflexivity|].
  split.
  { intros c Hc. pose proof (cellCount_pos _ _ _ Hc).
    pose proof (cellCount_le_max _ _ Hc). lia. }
  set (l := r :: rest).
  assert (Hne : map (fun c => cellCount heatGridSize c l) (cellsOf heatGridSize l) <> []).
  { unfold cellsOf. subst l. cbn. discriminate. }
  apply list_max_attained in Hne. fold (maxCellCount l) in Hne.
  apply in_map_iff in Hne as (c & Ec & Hc).
  split; [exists c; split; [exact Hc | exact Ec]|].
  split; [exact heat_centre_exact|].
  assert (Hw : forall l p, In p (heatPoints true l) ->
                 (0 < HeatPoint.weight p)%Q /\ (HeatPoint.weight p <= 1)%Q).
  { intros l' p Hp. rewrite heatPoints_cells in Hp.
    apply in_map_iff in Hp as (c' & <- & Hc'). cbn [heatPointOf HeatPoint.weight].
    pose proof (cellCount_pos _ _ _ Hc'). pose proof (cellCount_le_max _ _ Hc').
    split; [apply ratio_pos | apply ratio_le_1]; lia. }
  split; [apply Hw|].
  split; [|vm_compute; reflexivity].
  exists (heatPointOf l c). rewrite heatPoints_cells. split; [apply in_map, Hc|].
  assert (HeatPoint.weight (heatPointOf l c) == 1)%Q as H1.
  { cbn [heatPointOf HeatPoint.weight]. rewrite Ec. apply ratio_self.
    rewrite <- Ec. apply cellCount_pos, Hc. }
  split; [exact H1|]. intros p' Hp'. rewrite H1.
  apply (Hw l). rewrite heatPoints_cells. exact Hp'.
Qed.

Example heatPoints_three_reports :
  heatPoints true [Sample.day0; Sample.day5; Sample.day1]
  = [HeatPoint.mk (81 # 8) (81 # 8) (2 # 2);
     HeatPoint.mk (401 # 8) (401 # 8) (1 # 2)]
  /\ heatPoints false [Sample.day0; Sample.day5; Sample.day1] = [].
Proof. vm_compute. split; reflexivity. Qed.

(** * Further properties of the component *)

(** ** The temporal domain *)

Section DomainFacts.
Context {RT : Runtime}.

Lemma domainStep_attained pre acc r :
  attainedIn pre acc -> attainedIn (pre ++ [r]) (domainStep acc r).
Proof.
  unfold attainedIn, domainStep. intros [Hlo Hhi].
  assert (Hweak : forall t, (exists x, In x pre
                    /\ Date_getTime (HazardReport.timestamp x) = Some t) ->
                  exists x, In x (pre ++ [r])
                    /\ Date_getTime (HazardReport.timestamp x) = Some t).
  { intros t (x & Hx & Ex). exists x. split; [apply in_or_app; tauto | exact Ex]. }
  destruct (Date_getTime (HazardReport.timestamp r)) as [u|] eqn:Eu.
  - cbn [fst snd]. split; intros t Ht.
    + destruct (ltBound u (fst acc)); [|apply Hweak, Hlo, Ht].
      injection Ht as <-. exists r. split; [apply in_or_app; cbn; tauto | exact Eu].
    + destruct (gtBound u (snd acc)); [|apply Hweak, Hhi, Ht].
      injection Ht as <-. exists r. split; [apply in_or_app; cbn; tauto | exact Eu].
  - split; intros t Ht; [apply Hweak, Hlo, Ht | apply Hweak, Hhi, Ht].
Qed.

Lemma fold_attained rs : forall pre acc,
  attainedIn pre acc -> attainedIn (pre ++ rs) (fold_left domainStep rs acc).
Proof.
  induction rs as [|r rs IH]; intros pre acc H; cbn [fold_left].
  - rewrite app_nil_r. exact H.
  - replace (pre ++ r :: rs) with ((pre ++ [r]) ++ rs)
      by (rewrite <- app_assoc; reflexivity).
    apply IH, domainStep_attained, H.
Qed.

Lemma timeDomain_attained reports d :
  timeDomain reports = Some d ->
  (exists r, In r reports
             /\ Date_getTime (HazardReport.timestamp r) = Some (dmin d))
  /\ (exists r, In r reports
                /\ Date_getTime (HazardReport.timestamp r) = Some (dmax d)).
Proof.
  unfold timeDomain. destruct reports as [|r0 rs]; [discriminate|].
  assert (attainedIn [] (Infinity, NegInfinity)) as H0
    by (split; intros ? [=]).
  pose proof (fold_attained (r0 :: rs) [] _ H0) as [Hlo Hhi]. cbn [app] in *.
  destruct (fold_left domainStep (r0 :: rs) (Infinity, NegInfinity)) as [lo hi].
  destruct lo as [| |a]; try discriminate. destruct hi as [| |b]; try discriminate.
  intros [= <-]. cbn [dmin dmax fst snd] in *. split; [apply Hlo | apply Hhi]; reflexivity.
Qed.

Lemma fold_all_NaN reports : forall acc,
  (forall r, In r reports -> Date_getTime (HazardReport.timestamp r) = None) ->
  fold_left domainStep reports acc = acc.
Proof.
  induction reports as [|r rs IH]; intros acc H; cbn [fold_left]; [reflexivity|].
  unfold domainStep at 2. rewrite (H r (or_introl eq_refl)).
  apply IH. intros x Hx. apply H. right. exact Hx.
Qed.

Lemma timeDomain_all_NaN reports :
  (forall r, In r reports -> Date_getTime (HazardReport.timestamp r) = None) ->
  timeDomain reports = None.
Proof.
  intros H. unfold timeDomain. destruct reports as [|r0 rs]; [reflexivity|].
  rewrite (fold_all_NaN _ _ H). reflexivity.
Qed.

(** X1.  The domain calculator returns no domain exactly when no report has
    a parseable timestamp (in particular on the empty store).  When it
    returns one, its minimum and its maximum are timestamps of reports of
    the store, and every parseable timestamp of the store lies between
    them. *)
Theorem timeDomain_exact (reports : list HazardReport.t) :
  (timeDomain reports = None
   <-> forall r, In r reports ->
                 Date_getTime (HazardReport.timestamp r) = None)
  /\ (forall d, timeDomain reports = Some d ->
        (exists r, In r reports
                   /\ Date_getTime (HazardReport.timestamp r) = Some (dmin d))
        /\ (exists r, In r reports
                      /\ Date_getTime (HazardReport.timestamp r) = Some (dmax d))
        /\ (forall r t, In r reports ->
                        Date_getTime (HazardReport.timestamp r) = Some t ->
                        dmin d <= t <= dmax d)).
Proof.
  split.
  - split.
    + intros H r Hr. apply (timeDomain_none reports r H Hr).
    + apply timeDomain_all_NaN.
  - intros d Hd. destruct (timeDomain_attained reports d Hd) as [Hlo Hhi].
    repeat split; try assumption;
      destruct (timeDomain_bounds reports d r t Hd H H0); assumption.
Qed.

Lemma timeDomain_same_members l l' :
  (forall r, In r l <-> In r l') -> timeDomain l = timeDomain l'.
Proof.
  intros Hmem.
  destruct (timeDomain l) as [d|] eqn:E, (timeDomain l') as [d'|] eqn:E'.
  - destruct (timeDomain_attained l d E) as [(a & Ha & Ta) (b & Hb & Tb)].
    destruct (timeDomain_attained l' d' E') as [(a' & Ha' & Ta') (b' & Hb' & Tb')].
    pose proof (timeDomain_bounds l' d' a _ E' (proj1 (Hmem a) Ha) Ta).
    pose proof (timeDomain_bounds l' d' b _ E' (proj1 (Hmem b) Hb) Tb).
    pose proof (timeDomain_bounds l d a' _ E (proj2 (Hmem a') Ha') Ta').
    pose proof (timeDomain_bounds l d b' _ E (proj2 (Hmem b') Hb') Tb').
    destruct d as [lo hi], d' as [lo' hi']. cbn [dmin dmax] in *.
    f_equal. f_equal; lia.
  - destruct (timeDomain_attained l d E) as [(a & Ha & Ta) _].
    rewrite (timeDomain_none l' a E' (proj1 (Hmem a) Ha)) in Ta. discriminate.
  - destruct (timeDomain_attained l' d' E') as [(a & Ha & Ta) _].
    rewrite (timeDomain_none l a E (proj2 (Hmem a) Ha)) in Ta. discriminate.
  - reflexivity.
Qed.

(** X2.  The domain does not depend on the order of the store, nor on how
    often a report occurs in it: two stores with the same reports have the
    same domain. *)
Theorem timeDomain_order_independent (l l' : list HazardReport.t) :
  (forall r, In r l <-> In r l') -> timeDomain l = timeDomain l'.
Proof. apply timeDomain_same_members. Qed.

End DomainFacts.

Lemma timeDomain_order_independent_witness :
  (forall r, In r [Sample.day5; Sample.undated; Sample.day0]
             <-> In r [Sample.day0; Sample.day5; Sample.undated; Sample.day0])
  /\ timeDomain (RT := RefHost.host) [Sample.day5; Sample.undated; Sample.day0]
     = timeDomain (RT := RefHost.host)
         [Sample.day0; Sample.day5; Sample.undated; Sample.day0].
Proof.
  assert (forall r, In r [Sample.day5; Sample.undated; Sample.day0]
                    <-> In r [Sample.day0; Sample.day5; Sample.undated; Sample.day0])
    as H by (intros r; cbn; tauto).
  split; [exact H|].
  exact (timeDomain_order_independent (RT := RefHost.host) _ _ H).
Defined.

(** ** Time rules after a domain sync, and the cursor *)

Section TimeRuleFacts.
Context {RT : Runtime}.

Lemma keep_sync reports d filters cursor r :
  timeDomain reports = Some d -> In r reports ->
  keep (syncFilters (Some d) filters) (syncTimeline (Some d) cursor) r
  = keep (untimed filters) None r.
Proof.
  intros Hd Hin. unfold keep, syncFilters, syncTimeline, untimed.
  cbn [ActiveFilters.withTimeStart ActiveFilters.withTimeEnd
       ActiveFilters.hazardType ActiveFilters.status ActiveFilters.source
       ActiveFilters.timeStart ActiveFilters.timeEnd ActiveFilters.tagsQuery
       JS.truthyNumber andb].
  destruct (Date_getTime (HazardReport.timestamp r)) as [t|] eqn:Ht.
  - pose proof (timeDomain_bounds reports d r t Hd Hin Ht) as [Hlo Hhi].
    cbn [JS.lt JS.gt].
    replace (t <? dmin d) with false by (symmetry; apply Z.ltb_ge; lia).
    replace (t >? dmax d) with false
      by (symmetry; rewrite Z.gtb_ltb; apply Z.ltb_ge; lia).
    rewrite !andb_false_r. reflexivity.
  - cbn [JS.lt JS.gt]. rewrite !andb_false_r. reflexivity.
Qed.

(** X3.  After the sync that follows a change of the domain (time bounds at
    the domain's minimum and maximum, cursor at the maximum), the time rules
    exclude no report of the store, whatever the selectors and the tag
    query are: the result is the one of the same filters without time
    bounds and without cursor. *)
Theorem synced_time_rules_exclude_nothing
        (reports : list HazardReport.t) (d : TimeDomain)
        (filters : ActiveFilters.t) (cursor : option Z) :
  timeDomain reports = Some d ->
  filteredReports reports (syncFilters (Some d) filters)
                  (syncTimeline (Some d) cursor)
  = filteredReports reports (untimed filters) None.
Proof.
  intros Hd. unfold filteredReports. apply filter_ext_in.
  intros r Hin. apply (keep_sync reports d filters cursor r Hd Hin).
Qed.

Lemma keep_cursor filters c r :
  keep filters (Some c) r = keep filters None r && notAfter c r.
Proof.
  unfold keep, notAfter.
  repeat match goal with
         | |- (if ?c then false else _) = (if ?c then false else _) && _ =>
             destruct c; [reflexivity|]
         end.
  destruct (JS.gt (Date_getTime (HazardReport.timestamp r)) c);
    destruct (tagsPass (ActiveFilters.tagsQuery filters) r); reflexivity.
Qed.

Lemma notAfter_mono c1 c2 r : c1 <= c2 -> notAfter c1 r = true -> notAfter c2 r = true.
Proof.
  unfold notAfter. destruct (Date_getTime (HazardReport.timestamp r)) as [t|];
    cbn [JS.gt]; [|reflexivity].
  rewrite !Z.gtb_ltb, !negb_true_iff, !Z.ltb_ge. lia.
Qed.

Lemma filtered_cursor filters c reports :
  filteredReports reports filters (Some c)
  = filter (notAfter c) (filteredReports reports filters None).
Proof.
  unfold filteredReports. induction reports as [|r rs IH]; [reflexivity|].
  cbn [filter]. rewrite keep_cursor.
  destruct (keep filters None r); cbn [andb filter]; [|exact IH].
  destruct (notAfter c r); rewrite IH; reflexivity.
Qed.

(** X4.  The cursor is applied on top of the other rules: the result at
    cursor [c] is the result without cursor restricted to the reports dated
    at or before [c], undated reports staying; and a later cursor shows
    every report that an earlier one shows. *)
Theorem cursor_only_hides
        (reports : list HazardReport.t) (filters : ActiveFilters.t) (c1 c2 : Z) :
  c1 <= c2 ->
  filteredReports reports filters (Some c1)
  = filter (notAfter c1) (filteredReports reports filters None)
  /\ incl (filteredReports reports filters (Some c1))
          (filteredReports reports filters (Some c2))
  /\ incl (filteredReports reports filters (Some c2))
          (filteredReports reports filters None).
Proof.
  intros Hc. split; [apply filtered_cursor|]. rewrite !filtered_cursor.
  split; intros r Hr; apply filter_In in Hr as [Hin Hr]; [|exact Hin].
  apply filter_In. split; [exact Hin | exact (notAfter_mono c1 c2 r Hc Hr)].
Qed.

End TimeRuleFacts.

Lemma synced_time_rules_exclude_nothing_witness :
  timeDomain (RT := RefHost.host) [Sample.day0; Sample.undated; Sample.day5]
  = Some {| dmin := Sample.t0; dmax := Sample.t0 + 5 * 86400000 |}
  /\ filteredReports (RT := RefHost.host)
       [Sample.day0; Sample.undated; Sample.day5]
       (syncFilters (Some {| dmin := Sample.t0; dmax := Sample.t0 + 5 * 86400000 |})
                    Sample.bounded)
       (syncTimeline (Some {| dmin := Sample.t0; dmax := Sample.t0 + 5 * 86400000 |})
                     (Some 0))
     = [Sample.day0; Sample.undated; Sample.day5].
Proof.
  assert (timeDomain (RT := RefHost.host) [Sample.day0; Sample.undated; Sample.day5]
          = Some {| dmin := Sample.t0; dmax := Sample.t0 + 5 * 86400000 |}) as H
    by (vm_compute; reflexivity).
  split; [exact H|].
  apply (eq_trans (synced_time_rules_exclude_nothing (RT := RefHost.host)
                     _ _ Sample.bounded (Some 0) H)).
  vm_compute. reflexivity.
Defined.

Lemma cursor_only_hides_witness :
  Sample.t0 <= Sample.t0 + 86400000
  /\ incl (filteredReports (RT := RefHost.host)
             [Sample.day0; Sample.day1; Sample.day5] Sample.allFilters
             (Some Sample.t0))
          (filteredReports (RT := RefHost.host)
             [Sample.day0; Sample.day1; Sample.day5] Sample.allFilters
             (Some (Sample.t0 + 86400000))).
Proof.
  assert (Sample.t0 <= Sample.t0 + 86400000) as H by (vm_compute; discriminate).
  split; [exact H|].
  apply (cursor_only_hides (RT := RefHost.host)
           [Sample.day0; Sample.day1; Sample.day5] Sample.allFilters _ _ H).
Defined.

(** ** Replay: what stays visible, how long it runs, pause and jump *)

Lemma ticks_S dom k s : ticks (S k) dom s = tick dom (ticks k dom s).
Proof.
  replace (S k) with (k + 1)%nat by lia. rewrite ticks_add. reflexivity.
Qed.

Lemma ticks_cursorInDomain d k : forall s,
  cursorInDomain d s -> cursorInDomain d (ticks k (Some d) s).
Proof.
  induction k as [|k IH]; intros s H; cbn [ticks]; [exact H|].
  apply IH, tick_cursorInDomain, H.
Qed.

Lemma tick_cursor_grows d s a :
  timeline s = Some a -> a <= dmax d ->
  exists b, timeline (tick (Some d) s) = Some b /\ a <= b.
Proof.
  intros Ha Hle. pose proof (replayStep_pos d) as Hs.
  unfold tick, advance. rewrite Ha.
  destruct (isPlaying s); [|exists a; split; [exact Ha | lia]].
  destruct (a + replayStep d >=? dmax d) eqn:E; cbn [timeline].
  - exists (dmax d). split; [reflexivity | exact Hle].
  - exists (a + replayStep d). split; [reflexivity | lia].
Qed.

Lemma ticks_cursor_grows d c k :
  c <= dmax d ->
  exists a b,
    timeline (ticks k (Some d) (playingAt c)) = Some a
    /\ timeline (ticks (S k) (Some d) (playingAt c)) = Some b
    /\ a <= b.
Proof.
  intros Hc.
  assert (Hdom : cursorInDomain d (ticks k (Some d) (playingAt c))).
  { apply ticks_cursorInDomain. intros x [= <-]. exact Hc. }
  assert (Hdef : exists a, timeline (ticks k (Some d) (playingAt c)) = Some a).
  { clear Hdom. induction k as [|k IH]; [exists c; reflexivity|].
    destruct IH as (a & Ha). rewrite ticks_S.
    unfold tick, advance. rewrite Ha.
    destruct (isPlaying (ticks k (Some d) (playingAt c))); [|eauto].
    destruct (a + replayStep d >=? dmax d); cbn [timeline]; eauto. }
  destruct Hdef as (a & Ha).
  destruct (tick_cursor_grows d _ a Ha (Hdom a Ha)) as (b & Hb & Hab).
  exists a, b. rewrite ticks_S. auto.
Qed.

(** X5.  While the replay plays, starting from a cursor at or below the
    domain's maximum, the reports shown after a tick include all those
    shown before it: replay only reveals. *)
Theorem replay_only_reveals {RT : Runtime}
        (reports : list HazardReport.t) (filters : ActiveFilters.t)
        (d : TimeDomain) (c : Z) (k : nat) :
  c <= dmax d ->
  incl (filteredReports reports filters
          (timeline (ticks k (Some d) (playingAt c))))
       (filteredReports reports filters
          (timeline (ticks (S k) (Some d) (playingAt c)))).
Proof.
  intros Hc. destruct (ticks_cursor_grows d c k Hc) as (a & b & -> & -> & Hab).
  rewrite !filtered_cursor. intros r Hr. apply filter_In in Hr as [Hin Hr].
  apply filter_In. split; [exact Hin | exact (notAfter_mono a b r Hab Hr)].
Qed.

Lemma replay_only_reveals_witness :
  Sample.t0 <= dmax {| dmin := Sample.t0; dmax := Sample.t0 + 5 * 86400000 |}
  /\ incl (filteredReports (RT := RefHost.host)
             [Sample.day0; Sample.day1; Sample.day5] Sample.allFilters
             (timeline (ticks 23 (Some {| dmin := Sample.t0;
                                          dmax := Sample.t0 + 5 * 86400000 |})
                              (playingAt Sample.t0))))
          (filteredReports (RT := RefHost.host)
             [Sample.day0; Sample.day1; Sample.day5] Sample.allFilters
             (timeline (ticks 24 (Some {| dmin := Sample.t0;
                                          dmax := Sample.t0 + 5 * 86400000 |})
                              (playingAt Sample.t0)))).
Proof.
  assert (Sample.t0 <= dmax {| dmin := Sample.t0; dmax := Sample.t0 + 5 * 86400000 |})
    as H by (vm_compute; discriminate).
  split; [exact H|].
  exact (replay_only_reveals (RT := RefHost.host)
           [Sample.day0; Sample.day1; Sample.day5] Sample.allFilters _ _ 23 H).
Defined.

Example replay_reveals_second_report :
  filteredReports (RT := RefHost.host)
    [Sample.day0; Sample.day1; Sample.day5] Sample.allFilters
    (timeline (ticks 23 (Some {| dmin := Sample.t0;
                                 dmax := Sample.t0 + 5 * 86400000 |})
                     (playingAt Sample.t0)))
  = [Sample.day0]
  /\ filteredReports (RT := RefHost.host)
       [Sample.day0; Sample.day1; Sample.day5] Sample.allFilters
       (timeline (ticks 24 (Some {| dmin := Sample.t0;
                                    dmax := Sample.t0 + 5 * 86400000 |})
                        (playingAt Sample.t0)))
     = [Sample.day0; Sample.day1].
Proof. vm_compute. split; reflexivity. Qed.

Lemma replayStep_width d :
  let w := dmax d - dmin d in
  (w < 240 -> replayStep d = 1)
  /\ (120 <= w -> replayStep d * 120 <= w < replayStep d * 120 + 120).
Proof.
  unfold replayStep. cbn zeta. set (w := dmax d - dmin d).
  pose proof (Z.div_mod w 120 ltac:(lia)) as E.
  pose proof (Z.mod_pos_bound w 120 ltac:(lia)) as B.
  split; intros H; lia.
Qed.

(** X6.  A replay started anywhere in the domain stops, with the cursor at
    the maximum, after at most 239 ticks.  Started at the minimum of a
    domain at least 120 ms wide it is still playing, step by step, during
    its first 119 ticks. *)
Theorem replay_runs_120_to_239_ticks (d : TimeDomain) (c : Z) :
  dmin d <= c <= dmax d ->
  ticks 239 (Some d) (playingAt c) = stoppedAt (dmax d)
  /\ (120 <= dmax d - dmin d ->
      forall k, (k < 120)%nat ->
        ticks k (Some d) (playingAt (dmin d))
        = playingAt (dmin d + Z.of_nat k * replayStep d)).
Proof.
  intros [Hlo Hhi]. pose proof (replayStep_pos d) as Hs.
  destruct (replayStep_width d) as [Hsmall Hbig]. cbn zeta in *. split.
  - destruct (replay_run d (Z.to_nat (dmax d - c)) c Hhi ltac:(lia))
      as (n & Hn & _ & Hbelow & _ & Hend).
    assert (n <= 239)%nat as Hle.
    { destruct (Nat.le_gt_cases n 239) as [|Hgt]; [assumption|exfalso].
      specialize (Hbelow 239%nat ltac:(lia)).
      destruct (Z.lt_ge_cases (dmax d - dmin d) 240) as [Hw | Hw].
      - rewrite (Hsmall Hw) in Hbelow. lia.
      - specialize (Hbig ltac:(lia)). nia. }
    replace 239%nat with (n + (239 - n))%nat by lia.
    rewrite ticks_add, Hend. apply ticks_stopped. reflexivity.
  - intros Hw k Hk. specialize (Hbig Hw).
    destruct (replay_run d (Z.to_nat (dmax d - dmin d)) (dmin d)
                ltac:(lia) ltac:(lia))
      as (n & Hn & Hrun & _ & Hmeet & _).
    apply Hrun. assert (120 <= Z.of_nat n) by nia. lia.
Qed.

Lemma replay_runs_120_to_239_ticks_witness :
  dmin {| dmin := 0; dmax := 239 |} <= 0 <= dmax {| dmin := 0; dmax := 239 |}
  /\ ticks 239 (Some {| dmin := 0; dmax := 239 |}) (playingAt 0) = stoppedAt 239.
Proof.
  assert (dmin {| dmin := 0; dmax := 239 |} <= 0
          <= dmax {| dmin := 0; dmax := 239 |}) as H by (cbn; lia).
  split; [exact H|].
  exact (proj1 (replay_runs_120_to_239_ticks {| dmin := 0; dmax := 239 |} 0 H)).
Defined.

Example replay_239_ticks_needed :
  ticks 238 (Some {| dmin := 0; dmax := 239 |}) (playingAt 0) = playingAt 238
  /\ ticks 120 (Some {| dmin := 0; dmax := 120 |}) (playingAt 0) = stoppedAt 120.
Proof. vm_compute. split; reflexivity. Qed.

(** X7.  Pausing keeps the cursor: after a pause, ticks change nothing and
    resuming gives back the state that was paused.  Jumping to the latest
    instant while playing makes the next tick stop the replay at the
    domain's maximum; scrubbing while playing continues from the new
    position. *)
Theorem pause_resume_jump_scrub (d : TimeDomain) (c t0 : Z) (n : nat) :
  ticks n (Some d) (togglePlay (playingAt c)) = stoppedAt c
  /\ togglePlay (ticks n (Some d) (togglePlay (playingAt c))) = playingAt c
  /\ tick (Some d) (jumpLatest d (playingAt c)) = stoppedAt (dmax d)
  /\ isPlaying (jumpLatest d (playingAt c)) = true
  /\ tick (Some d) (scrub t0 (playingAt c)) = tick (Some d) (playingAt t0)
  /\ scrub t0 (stoppedAt c) = stoppedAt t0.
Proof.
  pose proof (replayStep_pos d) as Hs.
  assert (H : ticks n (Some d) (togglePlay (playingAt c)) = stoppedAt c)
    by (apply ticks_stopped; reflexivity).
  split; [exact H|]. split; [rewrite H; reflexivity|].
  split; [|repeat split].
  change (jumpLatest d (playingAt c)) with (playingAt (dmax d)).
  rewrite tick_playing.
  replace (dmax d + replayStep d >=? dmax d) with true; [reflexivity|].
  symmetry. rewrite Z.geb_leb. apply Z.leb_le. lia.
Qed.

(** ** More on the tag rule *)

Lemma splitRuns_piece sep s : forall inSep cur,
  cur <> EmptyString ->
  filter JS.truthyString (JS.splitRuns sep inSep cur s) <> [].
Proof.
  induction s as [|c s IH]; intros inSep cur Hcur; cbn [JS.splitRuns].
  - destruct cur; [congruence | cbn; discriminate].
  - destruct (sep c).
    + destruct inSep; [apply IH, Hcur|].
      destruct cur; [congruence | cbn; discriminate].
    + apply IH. destruct cur; discriminate.
Qed.

Lemma splitRuns_token sep s : forall inSep cur,
  allChars sep s = false ->
  filter JS.truthyString (JS.splitRuns sep inSep cur s) <> [].
Proof.
  induction s as [|c s IH]; intros inSep cur H; cbn [allChars] in H;
    [discriminate|]. cbn [JS.splitRuns].
  destruct (sep c); cbn [andb] in H.
  - destruct inSep; [apply IH, H|].
    cbn [filter]. destruct (JS.truthyString cur); [discriminate | apply IH, H].
  - apply splitRuns_piece. destruct cur; discriminate.
Qed.

Lemma needlesOf_empty q :
  needlesOf q = [] <-> allChars isTagSeparator q = true.
Proof.
  rewrite needlesOf_tokens. unfold JS.split. split.
  - intros H. destruct (allChars isTagSeparator q) eqn:E; [reflexivity|].
    apply (splitRuns_token isTagSeparator q false EmptyString) in E.
    destruct (filter JS.truthyString
                (JS.splitRuns isTagSeparator false EmptyString q));
      [congruence | discriminate].
  - intros H. rewrite splitRuns_separators by exact H. reflexivity.
Qed.

(** X8.  A tag query has no needle exactly when it consists of commas and
    whitespace only (or is empty), and such a query filters nothing: the
    result is the one without tag query. *)
Theorem separators_only_query_filters_nothing {RT : Runtime}
        (reports : list HazardReport.t) (filters : ActiveFilters.t)
        (cursor : option Z) (q : string) :
  (needlesOf q = [] <-> allChars isTagSeparator q = true)
  /\ (allChars isTagSeparator q = true ->
      filteredReports reports (ActiveFilters.withTagsQuery (Some q) filters) cursor
      = filteredReports reports (ActiveFilters.withTagsQuery None filters) cursor).
Proof.
  split; [apply needlesOf_empty|]. intros H. apply needlesOf_empty in H.
  unfold filteredReports. apply filter_ext. intros r.
  rewrite keep_tags, tagsPass_forallb, H. apply andb_true_r.
Qed.

Example separators_only_query_sample :
  allChars isTagSeparator " , ,, " = true
  /\ filteredReports (RT := RefHost.host)
       [Sample.day0; Sample.day1; Sample.day5]
       (ActiveFilters.withTagsQuery (Some " , ,, ") Sample.allFilters) None
     = [Sample.day0; Sample.day1; Sample.day5].
Proof. vm_compute. split; reflexivity. Qed.

(** X9.  The needles are required together: a query whose needles include
    those of another query admits no report that the other query rejects. *)
Theorem more_needles_narrow {RT : Runtime}
        (reports : list HazardReport.t) (filters : ActiveFilters.t)
        (cursor : option Z) (q1 q2 : string) :
  incl (needlesOf q1) (needlesOf q2) ->
  incl (filteredReports reports (ActiveFilters.withTagsQuery (Some q2) filters) cursor)
       (filteredReports reports (ActiveFilters.withTagsQuery (Some q1) filters) cursor).
Proof.
  intros Hincl r. unfold filteredReports.
  rewrite !filter_In, !keep_tags, !andb_true_iff, !tagsPass_carriesAll.
  intros (Hin & Hkeep & Hall). repeat split; try assumption.
  intros n Hn. apply Hall, Hincl, Hn.
Qed.

Lemma more_needles_narrow_witness :
  incl (needlesOf "coast") (needlesOf "flood, coast")
  /\ incl (filteredReports (RT := RefHost.host)
             [Sample.day0; Sample.day1; Sample.day5]
             (ActiveFilters.withTagsQuery (Some "flood, coast") Sample.allFilters)
             None)
          (filteredReports (RT := RefHost.host)
             [Sample.day0; Sample.day1; Sample.day5]
             (ActiveFilters.withTagsQuery (Some "coast") Sample.allFilters)
             None).
Proof.
  assert (incl (needlesOf "coast") (needlesOf "flood, coast")) as H
    by (vm_compute; intros x [<- | []]; right; left; reflexivity).
  split; [exact H|].
  exact (more_needles_narrow (RT := RefHost.host)
           [Sample.day0; Sample.day1; Sample.day5] Sample.allFilters None
           "coast" "flood, coast" H).
Defined.

(** X10.  The tag rule ignores letter case on both sides: two queries that
    agree in lower case give the same result, and whether a report passes
    depends on its tags only through their lower-case forms. *)
Theorem tag_rule_ignores_case {RT : Runtime}
        (reports : list HazardReport.t) (filters : ActiveFilters.t)
        (cursor : option Z) (q1 q2 : string) :
  JS.toLowerCase q1 = JS.toLowerCase q2 ->
  filteredReports reports (ActiveFilters.withTagsQuery (Some q1) filters) cursor
  = filteredReports reports (ActiveFilters.withTagsQuery (Some q2) filters) cursor
  /\ (forall r r',
        map JS.toLowerCase (tagsOf r) = map JS.toLowerCase (tagsOf r') ->
        tagsPass (Some q1) r = tagsPass (Some q2) r').
Proof.
  intros H. assert (needlesOf q1 = needlesOf q2) as E
    by (unfold needlesOf; rewrite H; reflexivity).
  split.
  - unfold filteredReports. apply filter_ext. intros r.
    rewrite !keep_tags, !tagsPass_forallb, E. reflexivity.
  - intros r r' Ht. rewrite !tagsPass_forallb, E, Ht. reflexivity.
Qed.

Lemma tag_rule_ignores_case_witness :
  JS.toLowerCase "Flood, COAST" = JS.toLowerCase "fLOOD, coast"
  /\ filteredReports (RT := RefHost.host)
       [Sample.day0; Sample.day1; Sample.day5]
       (ActiveFilters.withTagsQuery (Some "Flood, COAST") Sample.allFilters) None
     = filteredReports (RT := RefHost.host)
         [Sample.day0; Sample.day1; Sample.day5]
         (ActiveFilters.withTagsQuery (Some "fLOOD, coast") Sample.allFilters) None.
Proof.
  assert (JS.toLowerCase "Flood, COAST" = JS.toLowerCase "fLOOD, coast") as H
    by reflexivity.
  split; [exact H|].
  exact (proj1 (tag_rule_ignores_case (RT := RefHost.host)
                  [Sample.day0; Sample.day1; Sample.day5] Sample.allFilters None
                  "Flood, COAST" "fLOOD, coast" H)).
Defined.

(** ** Heat buckets and the heat layer *)

Lemma get_entries_missing {V : Type} (f : Z * Z -> V) k cs :
  (forall c, In c cs -> cellKey c <> k) -> StrMap.get k (entries f cs) = None.
Proof.
  unfold entries. induction cs as [|a cs IH]; intros H; cbn [map StrMap.get];
    [reflexivity|].
  destruct (String.eqb_spec k (cellKey a)) as [-> | _].
  - destruct (H a (or_introl eq_refl) eq_refl).
  - apply IH. intros c Hc. apply H. right. exact Hc.
Qed.

(** X11.  The heat pass counts every filtered report once: the counts of
    the buckets add up to the number of filtered reports; the bucket found
    under the key of a report's cell holds that cell's centre and the number
    of filtered reports in that cell, which is at least 1; and no bucket is
    found under a key that is the key of no report's cell. *)
Theorem heat_buckets_count_every_report (filtered : list HazardReport.t) :
  list_sum (map HeatBucket.count (StrMap.values (heatBuckets filtered)))
  = List.length filtered
  /\ (forall r, In r filtered ->
        exists b,
          StrMap.get (cellKey (cellOf heatGridSize r)) (heatBuckets filtered)
          = Some b
          /\ HeatBucket.count b
             = cellCount heatGridSize (cellOf heatGridSize r) filtered
          /\ (1 <= HeatBucket.count b)%nat
          /\ HeatBucket.lat b = centerLat heatGridSize (cellOf heatGridSize r)
          /\ HeatBucket.lng b = centerLng heatGridSize (cellOf heatGridSize r))
  /\ (forall k,
        (forall r, In r filtered -> cellKey (cellOf heatGridSize r) <> k) ->
        StrMap.get k (heatBuckets filtered) = None).
Proof.
  rewrite heatBuckets_entries. split; [|split].
  - rewrite values_entries, map_map. cbn [heatEntry HeatBucket.count].
    apply cellCount_total.
  - intros r Hr.
    assert (In (cellOf heatGridSize r) (cellsOf heatGridSize filtered)) as Hc
      by (apply cellsOf_In; eauto).
    exists (heatEntry filtered (cellOf heatGridSize r)).
    rewrite get_entries. rewrite (proj2 (inCells_In _ _) Hc).
    cbn [heatEntry HeatBucket.count HeatBucket.lat HeatBucket.lng].
    repeat split. apply cellCount_pos, Hc.
  - intros k Hk. apply get_entries_missing. intros c Hc.
    apply cellsOf_In in Hc as (r & Hr & <-). apply Hk, Hr.
Qed.

Lemma heat_weight_bounds filtered p :
  In p (heatPoints true filtered) ->
  (0 < HeatPoint.weight p)%Q /\ (HeatPoint.weight p <= 1)%Q.
Proof.
  intros Hp. rewrite heatPoints_cells in Hp.
  apply in_map_iff in Hp as (c & <- & Hc). cbn [heatPointOf HeatPoint.weight].
  pose proof (cellCount_pos _ _ _ Hc). pose proof (cellCount_le_max _ _ Hc).
  split; [apply ratio_pos | apply ratio_le_1]; lia.
Qed.

Lemma heat_weight_one r rest :
  exists p, In p (heatPoints true (r :: rest)) /\ (HeatPoint.weight p == 1)%Q.
Proof.
  set (l := r :: rest).
  assert (Hne : map (fun c => cellCount heatGridSize c l) (cellsOf heatGridSize l)
                <> []) by (unfold cellsOf; subst l; cbn; discriminate).
  apply list_max_attained in Hne. fold (maxCellCount l) in Hne.
  apply in_map_iff in Hne as (c & Ec & Hc).
  exists (heatPointOf l c). rewrite heatPoints_cells. split; [apply in_map, Hc|].
  cbn [heatPointOf HeatPoint.weight]. rewrite Ec. apply ratio_self.
  rewrite <- Ec. apply cellCount_pos, Hc.
Qed.

Lemma heatDiscs_In points : forall idx m,
  In m (heatDiscs idx points) ->
  exists p, In p points
            /\ heatSize m = 36 + Math_round (HeatPoint.weight p * 44)
            /\ heatDiscColor m = densityColor (HeatPoint.weight p).
Proof.
  induction points as [|p ps IH]; intros idx m Hm; [destruct Hm|].
  cbn [heatDiscs] in Hm. destruct Hm as [<- | Hm].
  - exists p. cbn. auto.
  - destruct (IH _ _ Hm) as (p' & Hp' & H). exists p'. cbn. tauto.
Qed.

Lemma heatDiscs_of points : forall idx p,
  In p points ->
  exists m, In m (heatDiscs idx points)
            /\ heatSize m = 36 + Math_round (HeatPoint.weight p * 44)
            /\ heatDiscColor m = densityColor (HeatPoint.weight p).
Proof.
  induction points as [|q ps IH]; intros idx p Hp; [destruct Hp|].
  cbn [heatDiscs]. destruct Hp as [-> | Hp].
  - eexists. split; [left; reflexivity|]. cbn. auto.
  - destruct (IH (S idx) p Hp) as (m & Hm & H). exists m. split; [right|]; tauto.
Qed.

Lemma heatDiscs_length points : forall idx,
  List.length (heatDiscs idx points) = List.length points.
Proof.
  induction points as [|p ps IH]; intros idx; cbn; [reflexivity|].
  rewrite IH. reflexivity.
Qed.

Lemma round_weight_bounds w :
  (0 < w)%Q -> (w <= 1)%Q -> 0 <= Math_round (w * 44) <= 44.
Proof.
  intros Hpos Hle. unfold Math_round. split.
  - change 0 with (Qfloor (1 # 2)). apply Qfloor_resp_le.
    assert (0 <= w * 44)%Q by (apply Qmult_le_0_compat; [apply Qlt_le_weak, Hpos | discriminate]).
    rewrite <- (Qplus_0_l (1 # 2)) at 1. apply Qplus_le_l. assumption.
  - change 44 with (Qfloor (44 + (1 # 2))). apply Qfloor_resp_le.
    apply Qplus_le_l. rewrite <- (Qmult_1_l 44) at 2.
    apply Qmult_le_compat_r; [exact Hle | discriminate].
Qed.

(** X12.  The heat layer draws one disc per heat point, and none when the
    heatmap is off or Leaflet is not loaded.  Every disc of the layer of a
    filtered sequence has a diameter between 36 and 80; when there is a
    filtered report, the disc of a densest cell has diameter 80 and the
    red of the high band. *)
Theorem heat_discs_size_and_colour
        (r : HazardReport.t) (rest filtered : list HazardReport.t)
        (heatmap : bool) (L : option LeafletModule) (points : list HeatPoint.t) :
  heatLayer false L points = []
  /\ heatLayer heatmap None points = []
  /\ List.length (heatLayer true (Some Leaflet) points) = List.length points
  /\ (forall m, In m (heatLayer true (Some Leaflet) (heatPoints true filtered)) ->
                36 <= heatSize m <= 80)
  /\ (exists m, In m (heatLayer true (Some Leaflet) (heatPoints true (r :: rest)))
                /\ heatSize m = 80 /\ heatDiscColor m = "#ef4444").
Proof.
  split; [reflexivity|]. split; [destruct heatmap; reflexivity|].
  split; [apply heatDiscs_length|]. cbn [heatLayer]. split.
  - intros m Hm. apply heatDiscs_In in Hm as (p & Hp & -> & _).
    destruct (heat_weight_bounds filtered p Hp) as [Hpos Hle].
    pose proof (round_weight_bounds _ Hpos Hle). lia.
  - destruct (heat_weight_one r rest) as (p & Hp & H1).
    destruct (heatDiscs_of _ 0%nat p Hp) as (m & Hm & Hsize & Hcol).
    exists m. split; [exact Hm|]. rewrite Hsize, Hcol. split.
    + unfold Math_round.
      assert (HeatPoint.weight p * 44 + (1 # 2) == 44 + (1 # 2))%Q as E
        by (rewrite H1; reflexivity).
      rewrite (Qfloor_comp _ _ E). reflexivity.
    + unfold densityColor.
      replace (Qle_bool (66 # 100) (HeatPoint.weight p)) with true; [reflexivity|].
      symmetry. apply Qle_bool_iff. rewrite H1. discriminate.
Qed.

(** ** The two density ramps *)

Lemma Qle_bool_false a b : Qle_bool a b = false <-> (b < a)%Q.
Proof.
  rewrite <- not_true_iff_false, Qle_bool_iff. split.
  - apply Qnot_le_lt.
  - apply Qlt_not_le.
Qed.

(** The weight after [Math.max(0, Math.min(1, weight))] is below a
    threshold between 0 and 1 exactly when the weight is. *)
Lemma clamp_below w t :
  (0 < t)%Q -> (t <= 1)%Q ->
  Qlt_bool (Math_max 0 (Math_min 1 w)) t = Qlt_bool w t.
Proof.
  intros Ht0 Ht1. unfold Qlt_bool, Math_max, Math_min. f_equal.
  destruct (Qle_bool 1 w) eqn:E1.
  - apply Qle_bool_iff in E1. change (Qle_bool 0 1) with true. cbn match.
    replace (Qle_bool t w) with true
      by (symmetry; apply Qle_bool_iff; eapply Qle_trans; eassumption).
    apply Qle_bool_iff, Ht1.
  - apply Qle_bool_false in E1. destruct (Qle_bool 0 w) eqn:E0; [reflexivity|].
    apply Qle_bool_false in E0.
    replace (Qle_bool t w) with false
      by (symmetry; apply Qle_bool_false; eapply Qlt_trans; eassumption).
    apply Qle_bool_false, Ht0.
Qed.

(** X13.  The two colour ramps of the file agree on the density bands:
    for every weight and alpha, [densityColor] answers green, amber or red
    exactly when [heatColor] answers its green, amber or red, the weight
    being clamped to [0, 1] first without changing its band. *)
Theorem density_ramps_agree {RT : Runtime} (w alpha : Q) :
  (densityColor w = "#10b981"
   <-> heatColor w alpha = ("rgba(16,185,129," ++ Number_toString alpha ++ ")")%string)
  /\ (densityColor w = "#f59e0b"
      <-> heatColor w alpha = ("rgba(234,179,8," ++ Number_toString alpha ++ ")")%string)
  /\ (densityColor w = "#ef4444"
      <-> heatColor w alpha = ("rgba(239,68,68," ++ Number_toString alpha ++ ")")%string).
Proof.
  unfold heatColor, densityColor.
  rewrite !clamp_below by (reflexivity || discriminate).
  unfold Qlt_bool.
  assert (Qle_bool (66 # 100) w = true -> Qle_bool (33 # 100) w = true) as Hmono.
  { rewrite !Qle_bool_iff. intros H. eapply Qle_trans; [|exact H]. discriminate. }
  destruct (Qle_bool (66 # 100) w) eqn:E66, (Qle_bool (33 # 100) w) eqn:E33;
    try (specialize (Hmono eq_refl); discriminate);
    cbn [negb append];
    repeat split; intros H; try reflexivity; discriminate H.
Qed.

Example density_ramps_sample :
  densityColor (1 # 2) = "#f59e0b"
  /\ heatColor (RT := RefHost.host) (1 # 2) 1 = "rgba(234,179,8,1)"
  /\ heatColor (RT := RefHost.host) 7 (1 # 2) = "rgba(239,68,68,0.5)"
  /\ heatColor (RT := RefHost.host) (-3) 1 = "rgba(16,185,129,1)".
Proof. vm_compute. repeat split; reflexivity. Qed.

(** ** Status colours *)

(** X14.  Each status has its own colour: different statuses never share
    one.  The pin icon that [statusIcons] builds for a status is filled with
    the colour [statusToColor] gives it, the one used for cluster markers
    and the legend; without Leaflet there are no icons. *)
Theorem status_colours_distinct_and_shared :
  (forall s s', statusToColor s = statusToColor s' -> s = s')
  /\ (forall icons, statusIcons (Some Leaflet) = Some icons ->
        forall s, fill (icons s) = statusToColor s
                  /\ className (icons s) = "status-pin")
  /\ statusIcons None = None.
Proof.
  split; [|split; [|reflexivity]].
  - intros s s'; destruct s, s'; cbn; intros H; try reflexivity; discriminate H.
  - intros icons [= <-] s. destruct s; split; reflexivity.
Qed.

(** ** The rendered cluster markers *)

Lemma markerStep_acc acc i b :
  markerStep (acc, i) b
  = (acc ++ fst (markerStep ([], i) b), snd (markerStep ([], i) b)).
Proof.
  unfold markerStep. destruct (ClusterBucket.items b) as [|r [|r' rest]];
    reflexivity.
Qed.

Lemma fold_markerStep_markersOf bs : forall acc i,
  fst (fold_left markerStep bs (acc, i)) = acc ++ markersOf i bs.
Proof.
  induction bs as [|b bs IH]; intros acc i; cbn [fold_left markersOf fst].
  - rewrite app_nil_r. reflexivity.
  - rewrite markerStep_acc. destruct (markerStep ([], i) b) as [ms j].
    cbn [fst snd]. rewrite IH, app_assoc. reflexivity.
Qed.

Lemma renderClusteredMarkers_markersOf reports :
  renderClusteredMarkers (Some Leaflet) reports
  = Some (markersOf 0 (map (clusterEntry reports)
                           (cellsOf clusterGridSize reports))).
Proof.
  unfold renderClusteredMarkers.
  rewrite clusterBuckets_entries, values_entries, fold_markerStep_markersOf.
  reflexivity.
Qed.

Lemma markerStep_one b i :
  (exists r, ClusterBucket.items b = [r]
             /\ markerStep ([], i) b
                = ([ReportMarker (HazardReport.id r)
                      (HazardReport.lat r, HazardReport.lng r) r], i))
  \/ (List.length (ClusterBucket.items b) <> 1%nat
      /\ markerStep ([], i) b
         = ([ClusterMarker ("c-" ++ JS.showInt (Z.of_nat i))
               (ClusterBucket.lat b, ClusterBucket.lng b)
               (List.length (ClusterBucket.items b))
               (24 + Nat.min 18 (List.length (ClusterBucket.items b)))
               (statusToColor (dominantStatusIn (ClusterBucket.items b)))
               (firstn 10 (ClusterBucket.items b))], (i + 1)%nat)).
Proof.
  unfold markerStep. destruct (ClusterBucket.items b) as [|r [|r' rest]].
  - right. split; [discriminate | reflexivity].
  - left. exists r. split; reflexivity.
  - right. split; [discriminate | reflexivity].
Qed.

Lemma markersOf_shape l cs : forall i,
  (forall c, In c cs -> members clusterGridSize c l <> []) ->
  Forall2 (fun c m =>
             markerShape (centerLat clusterGridSize c, centerLng clusterGridSize c)
                         (members clusterGridSize c l) m)
          cs (markersOf i (map (clusterEntry l) cs)).
Proof.
  induction cs as [|c cs IH]; intros i Hne; cbn [map markersOf]; [constructor|].
  assert (Hc : members clusterGridSize c l <> []) by (apply Hne; left; reflexivity).
  assert (Hrest : forall c', In c' cs -> members clusterGridSize c' l <> [])
    by (intros c' Hc'; apply Hne; right; exact Hc').
  destruct (markerStep_one (clusterEntry l c) i) as [(r & Hr & ->) | (Hlen & ->)];
    cbn [clusterEntry ClusterBucket.items ClusterBucket.lat ClusterBucket.lng app]
      in *; constructor; try (apply IH, Hrest).
  - left. exists r. split; [exact Hr | reflexivity].
  - right.
    assert (2 <= List.length (members clusterGridSize c l))%nat as H2.
    { destruct (members clusterGridSize c l) as [|x [|y rest]]; cbn in *;
        [congruence | congruence | lia]. }
    split; [exact H2|]. do 2 eexists. split; [reflexivity|].
    split; [reflexivity|]. split; [lia|]. apply firstn_le_length.
Qed.

(** X15.  With Leaflet loaded the cluster pass renders exactly one marker
    per non-empty cell, in the order of the cells.  A cell with one report
    gets that report's own marker, keyed by the report's id and placed at
    the report's coordinates.  A cell with two or more reports gets a
    cluster marker at the cell's centre showing the member count, with a
    diameter of [24 + min(18, count)], hence between 26 and 42, the colour
    of the dominant status, and the first ten members at most.  Without
    Leaflet nothing is rendered. *)
Theorem cluster_markers_per_cell (reports : list HazardReport.t) :
  renderClusteredMarkers None reports = None
  /\ exists markers,
       renderClusteredMarkers (Some Leaflet) reports = Some markers
       /\ Forall2
            (fun c m =>
               markerShape (centerLat clusterGridSize c,
                            centerLng clusterGridSize c)
                           (members clusterGridSize c reports) m)
            (cellsOf clusterGridSize reports) markers.
Proof.
  split; [reflexivity|]. eexists. split; [apply renderClusteredMarkers_markersOf|].
  apply markersOf_shape. intros c Hc E.
  pose proof (cellCount_pos _ _ _ Hc) as H. unfold cellCount in H.
  rewrite E in H. cbn in H. lia.
Qed.

Lemma clusterKeys_markersOf bs : forall i,
  clusterKeys (markersOf i bs)
  = map (fun j => "c-" ++ JS.showInt (Z.of_nat j))%string
        (seq i (List.length (clusterKeys (markersOf i bs)))).
Proof.
  induction bs as [|b bs IH]; intros i; cbn [markersOf]; [reflexivity|].
  destruct (markerStep_one b i) as [(r & _ & ->) | (_ & ->)];
    unfold clusterKeys; cbn [app flat_map]; fold (clusterKeys (markersOf i bs));
    fold (clusterKeys (markersOf (i + 1) bs)).
  - apply IH.
  - cbn [List.length seq map]. f_equal.
    rewrite (IH (i + 1)%nat) at 1. rewrite Nat.add_1_r. reflexivity.
Qed.

Lemma clusterKey_inj i j :
  ("c-" ++ JS.showInt (Z.of_nat i))%string = ("c-" ++ JS.showInt (Z.of_nat j))%string ->
  i = j.
Proof.
  cbn [append]. intros [= E]. apply showInt_inj in E. lia.
Qed.

(** X16.  The keys of the cluster markers are [c-0], [c-1], ... in the
    order of the markers, so no two cluster markers share a key. *)
Theorem cluster_marker_keys (reports : list HazardReport.t) :
  exists markers,
    renderClusteredMarkers (Some Leaflet) reports = Some markers
    /\ clusterKeys markers
       = map (fun j => "c-" ++ JS.showInt (Z.of_nat j))%string
             (seq 0 (List.length (clusterKeys markers)))
    /\ NoDup (clusterKeys markers).
Proof.
  eexists. split; [apply renderClusteredMarkers_markersOf|].
  split; [apply clusterKeys_markersOf|].
  rewrite clusterKeys_markersOf. apply Finite.Injective_map_NoDup.
  - intros i j. apply clusterKey_inj.
  - apply seq_NoDup.
Qed.

Example cluster_marker_keys_sample :
  option_map clusterKeys
    (renderClusteredMarkers (Some Leaflet)
       [Sample.day0; Sample.day5; Sample.day1; Sample.old; Sample.day5;
        Sample.undated; Sample.old])
  = Some ["c-0"; "c-1"; "c-2"].
Proof. vm_compute. reflexivity. Qed.

(** ** More on the dominant status *)

(** X17.  A status that has strictly more members than every other status
    is the dominant one; in particular the status shared by all members of
    a non-empty list is. *)
Theorem strict_majority_is_dominant
        (items : list HazardReport.t) (s : HazardStatus) :
  (forall s', s' <> s -> (memberCount s' items < memberCount s items)%nat) ->
  dominantStatusIn items = s.
Proof.
  intros H.
  pose proof (H unverified) as H0. pose proof (H under_review) as H1.
  pose proof (H verified) as H2. pose proof (H false_alarm) as H3.
  unfold dominantStatusIn, reduce1, Counts.keys. cbn [fold_left].
  rewrite !counts_fold. cbn [Counts.zero Nat.add].
  destruct (Nat.leb_spec (memberCount under_review items)
                         (memberCount unverified items));
  match goal with
  | |- context [(memberCount verified items <=? memberCount ?a items)%nat] =>
      destruct (Nat.leb_spec (memberCount verified items) (memberCount a items))
  end;
  match goal with
  | |- context [(memberCount false_alarm items <=? memberCount ?a items)%nat] =>
      destruct (Nat.leb_spec (memberCount false_alarm items) (memberCount a items))
  end;
  destruct s; try reflexivity; exfalso;
  repeat match goal with
         | Hx : ?a <> ?b -> _ |- _ =>
             first [ specialize (Hx ltac:(discriminate)) | clear Hx ]
         end; lia.
Qed.

Lemma strict_majority_is_dominant_witness :
  (forall s', s' <> verified ->
     (memberCount s' [Sample.day0; Sample.day1; Sample.day0]
      < memberCount verified [Sample.day0; Sample.day1; Sample.day0])%nat)
  /\ dominantStatusIn [Sample.day0; Sample.day1; Sample.day0] = verified.
Proof.
  assert (forall s', s' <> verified ->
     (memberCount s' [Sample.day0; Sample.day1; Sample.day0]
      < memberCount verified [Sample.day0; Sample.day1; Sample.day0])%nat) as H
    by (intros s' N; destruct s'; vm_compute; try lia; congruence).
  split; [exact H|].
  exact (strict_majority_is_dominant _ _ H).
Defined.

Lemma memberCount_perm s l l' :
  Permutation l l' -> memberCount s l = memberCount s l'.
Proof.
  unfold memberCount. induction 1 as [|x l l' _ IH|x y l|l l' l'' _ IH1 _ IH2];
    cbn [filter].
  - reflexivity.
  - destruct (HazardStatus_eqb (HazardReport.status x) s); cbn; rewrite IH;
      reflexivity.
  - destruct (HazardStatus_eqb (HazardReport.status x) s),
             (HazardStatus_eqb (HazardReport.status y) s); reflexivity.
  - rewrite IH1. exact IH2.
Qed.

(** X18.  The dominant status depends on the members only through how many
    there are of each status: reordering the members does not change it. *)
Theorem dominantStatusIn_order_independent (items items' : list HazardReport.t) :
  Permutation items items' ->
  dominantStatusIn items = dominantStatusIn items'.
Proof.
  intros H. unfold dominantStatusIn, reduce1, Counts.keys. cbn [fold_left].
  rewrite !counts_fold.
  rewrite !(memberCount_perm _ _ _ H). reflexivity.
Qed.

Lemma dominantStatusIn_order_independent_witness :
  Permutation [Sample.day0; Sample.day1] [Sample.day1; Sample.day0]
  /\ dominantStatusIn [Sample.day0; Sample.day1]
     = dominantStatusIn [Sample.day1; Sample.day0].
Proof.
  assert (Permutation [Sample.day0; Sample.day1] [Sample.day1; Sample.day0]) as H
    by apply perm_swap.
  split; [exact H|].
  exact (dominantStatusIn_order_independent _ _ H).
Defined.

(** ** Clustering on well-separated reports *)

Lemma firstOccurrences_distinct cs : NoDup cs -> firstOccurrences cs = cs.
Proof.
  induction 1 as [|c cs Hc _ IH]; cbn [firstOccurrences]; [reflexivity|].
  rewrite IH. f_equal. apply filter_all. intros c' Hc'.
  destruct (cell_eqb_spec c' c); [congruence | reflexivity].
Qed.

Lemma members_alone gs l : forall r,
  NoDup (map (cellOf gs) l) -> In r l -> members gs (cellOf gs r) l = [r].
Proof.
  unfold members, inCell.
  induction l as [|a l IH]; intros r Hnd Hin; [destruct Hin|].
  cbn [map] in Hnd. apply NoDup_cons_iff in Hnd as [Ha Hnd]. cbn [filter].
  destruct Hin as [-> | Hin].
  - rewrite cell_eqb_refl. f_equal.
    destruct (filter (fun x => cell_eqb (cellOf gs x) (cellOf gs r)) l)
      as [|x xs] eqn:E; [reflexivity|].
    assert (In x (filter (fun x => cell_eqb (cellOf gs x) (cellOf gs r)) l))
      as Hx by (rewrite E; left; reflexivity).
    apply filter_In in Hx as [Hx Ex].
    destruct (cell_eqb_spec (cellOf gs x) (cellOf gs r)) as [Ec|]; [|discriminate].
    exfalso. apply Ha. rewrite <- Ec. apply in_map, Hx.
  - destruct (cell_eqb_spec (cellOf gs a) (cellOf gs r)) as [Ec|_].
    + exfalso. apply Ha. rewrite Ec. apply in_map, Hin.
    + apply IH; assumption.
Qed.

Lemma markersOf_alone l rs : forall i,
  (forall r, In r rs -> members clusterGridSize (cellOf clusterGridSize r) l = [r]) ->
  markersOf i (map (clusterEntry l) (map (cellOf clusterGridSize) rs))
  = map (fun r => ReportMarker (HazardReport.id r)
                    (HazardReport.lat r, HazardReport.lng r) r) rs.
Proof.
  induction rs as [|r rs IH]; intros i H; cbn [map markersOf]; [reflexivity|].
  unfold markerStep at 1. cbn [clusterEntry ClusterBucket.items].
  rewrite (H r (or_introl eq_refl)). cbn [app]. f_equal.
  apply IH. intros x Hx. apply H. right. exact Hx.
Qed.

(** X19.  When no two filtered reports fall into the same 0.06-degree cell,
    switching clustering on changes neither the keys nor the positions of
    the markers, nor their order: there is one marker per report, keyed by
    the report's id and placed at the report's coordinates. *)
Theorem clustering_keeps_separated_reports
        (filters : ActiveFilters.t) (filtered : list HazardReport.t) :
  NoDup (map (cellOf clusterGridSize) filtered) ->
  ActiveFilters.clustering filters = true ->
  option_map (map (fun m => (markerKey m, markerPosition m)))
             (markersLayer filters (Some Leaflet) filtered)
  = Some (map (fun r => (HazardReport.id r,
                         (HazardReport.lat r, HazardReport.lng r))) filtered)
  /\ option_map (map (fun m => (markerKey m, markerPosition m)))
                (plainMarkers (Some Leaflet) filtered)
     = Some (map (fun r => (HazardReport.id r,
                            (HazardReport.lat r, HazardReport.lng r))) filtered).
Proof.
  intros Hnd Hon. unfold markersLayer. rewrite Hon.
  rewrite renderClusteredMarkers_markersOf. unfold cellsOf.
  rewrite (firstOccurrences_distinct _ Hnd).
  rewrite markersOf_alone by (intros r Hr; apply members_alone; assumption).
  cbn [option_map plainMarkers]. rewrite !map_map. split; reflexivity.
Qed.

Lemma clustering_keeps_separated_reports_witness :
  NoDup (map (cellOf clusterGridSize) [Sample.day0; Sample.day5])
  /\ ActiveFilters.clustering Sample.allFilters = true
  /\ option_map (map (fun m => (markerKey m, markerPosition m)))
                (markersLayer Sample.allFilters (Some Leaflet)
                              [Sample.day0; Sample.day5])
     = Some [("r0", (10%Q, 10%Q)); ("r2", (50%Q, 50%Q))].
Proof.
  assert (NoDup (map (cellOf clusterGridSize) [Sample.day0; Sample.day5])) as H.
  { vm_compute. repeat constructor; cbn; intuition discriminate. }
  split; [exact H|]. split; [reflexivity|].
  exact (proj1 (clustering_keeps_separated_reports Sample.allFilters
                  [Sample.day0; Sample.day5] H eq_refl)).
Defined.

(** ** Escaping *)

Lemma escapeChar_cases c :
  (c = "&"%char /\ escapeChar c = "&amp;")
  \/ (c = "<"%char /\ escapeChar c = "&lt;")
  \/ (c = ">"%char /\ escapeChar c = "&gt;")
  \/ (c = quote /\ escapeChar c = "&quot;")
  \/ (c <> "&"%char /\ c <> "<"%char /\ c <> ">"%char /\ c <> quote
      /\ escapeChar c = String c EmptyString).
Proof.
  unfold escapeChar.
  destruct (Ascii.eqb_spec c "&"); [tauto|].
  destruct (Ascii.eqb_spec c "<"); [tauto|].
  destruct (Ascii.eqb_spec c ">"); [tauto|].
  destruct (Ascii.eqb_spec c quote); tauto.
Qed.

Lemma includesChar_app c a b :
  JS.includesChar c (a ++ b) = JS.includesChar c a || JS.includesChar c b.
Proof.
  induction a as [|d a IH]; cbn [append JS.includesChar]; [reflexivity|].
  rewrite IH. apply orb_assoc.
Qed.

Lemma escapeText_clean s :
  JS.includesChar "<" (escapeText s) = false
  /\ JS.includesChar ">" (escapeText s) = false
  /\ JS.includesChar quote (escapeText s) = false.
Proof.
  induction s as [|c s (IH1 & IH2 & IH3)]; cbn [escapeText]; [repeat split|].
  rewrite !includesChar_app, IH1, IH2, IH3, !orb_false_r.
  destruct (escapeChar_cases c)
    as [[-> ->] | [[-> ->] | [[-> ->] | [[-> ->] | (_ & N1 & N2 & N3 & ->)]]]];
    try (repeat split; reflexivity).
  cbn [JS.includesChar]. rewrite !orb_false_r.
  repeat split; apply Ascii.eqb_neq; congruence.
Qed.

Lemma escapeText_inj s1 : forall s2, escapeText s1 = escapeText s2 -> s1 = s2.
Proof.
  induction s1 as [|c s1 IH]; intros [|c' s2]; cbn [escapeText].
  - reflexivity.
  - destruct (escapeChar_cases c')
      as [[_ ->] | [[_ ->] | [[_ ->] | [[_ ->] | (_ & _ & _ & _ & ->)]]]];
      discriminate.
  - destruct (escapeChar_cases c)
      as [[_ ->] | [[_ ->] | [[_ ->] | [[_ ->] | (_ & _ & _ & _ & ->)]]]];
      discriminate.
  - destruct (escapeChar_cases c)
      as [[-> ->] | [[-> ->] | [[-> ->] | [[-> ->] | (N0 & N1 & N2 & N3 & ->)]]]];
    destruct (escapeChar_cases c')
      as [[-> ->] | [[-> ->] | [[-> ->] | [[-> ->] | (M0 & M1 & M2 & M3 & ->)]]]];
    cbn [append]; intros E;
    try discriminate E;
    try (injection E as E; f_equal; apply IH, E);
    try (injection E as <- _; congruence);
    try (injection E as -> _; congruence).
    injection E as -> E. f_equal. apply IH, E.
Qed.

(** X20.  The text that [escapeHTML] returns holds no angle bracket and no
    double quote, whatever the input; an absent value is escaped like the
    empty string; and escaping loses nothing: two different strings never
    have the same escaped text. *)
Theorem escapeHTML_clean_and_lossless (s : option string) (s1 s2 : string) :
  JS.includesChar "<" (escapeHTML s) = false
  /\ JS.includesChar ">" (escapeHTML s) = false
  /\ JS.includesChar quote (escapeHTML s) = false
  /\ escapeHTML None = EmptyString
  /\ (escapeHTML (Some s1) = escapeHTML (Some s2) -> s1 = s2).
Proof.
  unfold escapeHTML. destruct (escapeText_clean (safe s)) as (H1 & H2 & H3).
  repeat split; try assumption. apply escapeText_inj.
Qed.

Example escapeHTML_sample :
  escapeHTML
    (Some ("<a href=" ++ String quote ("x" ++ String quote ">R&D</a>"))%string)
  = "&lt;a href=&quot;x&quot;&gt;R&amp;D&lt;/a&gt;".
Proof. vm_compute. reflexivity. Qed.

Lemma append_length a b :
  String.length (a ++ b) = (String.length a + String.length b)%nat.
Proof. induction a as [|c a IH]; cbn; [reflexivity | now rewrite IH]. Qed.

Lemma append_inv_tail a : forall b c, (a ++ c)%string = (b ++ c)%string -> a = b.
Proof.
  induction a as [|x a IH]; intros [|y b] c E; cbn [append] in E.
  - reflexivity.
  - apply (f_equal String.length) in E. cbn in E. rewrite append_length in E. lia.
  - apply (f_equal String.length) in E. cbn in E. rewrite append_length in E. lia.
  - injection E as -> E. f_equal. apply (IH b c E).
Qed.

Lemma Doubled_inj s1 b : Doubled s1 b -> forall s2, Doubled s2 b -> s1 = s2.
Proof.
  induction 1 as [|s b _ IH|c s b Hc _ IH]; intros s2 H2; inversion H2; subst;
    try reflexivity; try congruence.
  - f_equal. apply IH. assumption.
  - f_equal. apply IH. assumption.
Qed.

Lemma escaped_quoted_head {RT : Runtime} s :
  needsQuoting s = true -> exists rest, escaped s = String quote rest.
Proof.
  intros H. destruct (proj2 (escaped_spec s) H) as (body & -> & _). eauto.
Qed.

Lemma escaped_inj {RT : Runtime} (s1 s2 : string) :
  escaped s1 = escaped s2 -> s1 = s2.
Proof.
  intros E.
  destruct (needsQuoting s1) eqn:Q1, (needsQuoting s2) eqn:Q2.
  - destruct (proj2 (escaped_spec s1) Q1) as (b1 & E1 & D1).
    destruct (proj2 (escaped_spec s2) Q2) as (b2 & E2 & D2).
    rewrite E1, E2 in E. injection E as E. apply append_inv_tail in E. subst b2.
    exact (Doubled_inj s1 b1 D1 s2 D2).
  - destruct (escaped_quoted_head s1 Q1) as (rest & E1).
    rewrite (proj1 (escaped_spec s2) Q2) in E. rewrite E1 in E. subst s2.
    unfold needsQuoting in Q2. cbn [JS.includesChar] in Q2.
    rewrite Ascii.eqb_refl in Q2. cbn [orb] in Q2.
    rewrite !orb_true_r in Q2. discriminate.
  - destruct (escaped_quoted_head s2 Q2) as (rest & E2).
    rewrite (proj1 (escaped_spec s1) Q1) in E. rewrite E2 in E. subst s1.
    unfold needsQuoting in Q1. cbn [JS.includesChar] in Q1.
    rewrite Ascii.eqb_refl in Q1. cbn [orb] in Q1.
    rewrite !orb_true_r in Q1. discriminate.
  - rewrite (proj1 (escaped_spec s1) Q1), (proj1 (escaped_spec s2) Q2) in E.
    exact E.
Qed.

(** X21.  CSV escaping loses nothing of the string form of a value: two
    values, strings or numbers, are written as the same field text exactly
    when their string forms [String(v)] are equal.  So two different
    strings are never written as the same field text, and a number is
    written as the string of its digits is. *)
Theorem csvEscape_lossless {RT : Runtime} (v1 v2 : Cell) (x : Q) :
  (csvEscape v1 = csvEscape v2 <-> String_ v1 = String_ v2)
  /\ (forall s1 s2, csvEscape (CStr s1) = csvEscape (CStr s2) -> s1 = s2)
  /\ csvEscape (CNum x) = csvEscape (CStr (Number_toString x)).
Proof.
  split; [|split; [exact escaped_inj | reflexivity]].
  rewrite !csvEscape_String. split.
  - apply escaped_inj.
  - intros ->. reflexivity.
Qed.

Example csvEscape_number_and_digits :
  csvEscape (RT := RefHost.host) (CNum 50) = "50"
  /\ csvEscape (RT := RefHost.host) (CStr "50") = "50"
  /\ csvEscape (RT := RefHost.host) (CStr "a,b")
     = String quote ("a,b" ++ String quote EmptyString)
  /\ csvEscape (RT := RefHost.host) (CStr (String quote "a,b" ++ String quote EmptyString))
     = String quote (String quote (String quote
         ("a,b" ++ String quote (String quote (String quote EmptyString))))).
Proof. vm_compute. repeat split; reflexivity. Qed.

(** ** When the export throws *)

Lemma csvRows_inl {RT : Runtime} filtered e :
  csvRows filtered = inl e ->
  exists r, In r filtered /\ Date_getTime (HazardReport.timestamp r) = None.
Proof.
  induction filtered as [|r rs IH]; cbn [csvRows]; [discriminate|].
  unfold csvRow at 1, toISOString at 1.
  destruct (Date_getTime (HazardReport.timestamp r)) eqn:Et.
  - destruct (csvRows rs) as [e'|rows]; [|discriminate].
    intros _. destruct e, e'.
    destruct (IH eq_refl) as (x & Hx & Ex). exists x. cbn. tauto.
  - intros _. exists r. cbn. tauto.
Qed.

(** X22.  The CSV export throws exactly when some filtered report has a
    timestamp that is not a date, and what it throws is a [RangeError];
    otherwise it returns a text.  With no filtered report it returns the
    header line alone. *)
Theorem exportCSV_throws_exactly {RT : Runtime} (filtered : list HazardReport.t) :
  (exportCSV filtered = inl RangeError
   <-> exists r, In r filtered
                 /\ Date_getTime (HazardReport.timestamp r) = None)
  /\ ((exists csv, exportCSV filtered = inr csv)
      <-> forall r, In r filtered ->
                    Date_getTime (HazardReport.timestamp r) <> None)
  /\ exportCSV []
     = inr "id,title,type,status,source,timestamp,lat,lng,locationName,personName,tags,description".
Proof.
  split; [|split; [|reflexivity]].
  - split.
    + unfold exportCSV. destruct (csvRows filtered) as [e|rows] eqn:E;
        [|discriminate]. intros _. exact (csvRows_inl filtered e E).
    + intros (r & Hr & Er). exact (exportCSV_throws filtered r Hr Er).
  - split.
    + intros (csv & E) r Hr Er.
      rewrite (exportCSV_throws filtered r Hr Er) in E. discriminate.
    + intros H. apply Forall_forall in H.
      destruct (csvRows_ok filtered H) as (rows & E & _).
      unfold exportCSV. rewrite E. eauto.
Qed.

(** ** Capitalising *)

Lemma upperChar_idempotent c : upperChar (upperChar c) = upperChar c.
Proof. destruct c as [[] [] [] [] [] [] [] []]; reflexivity. Qed.

Lemma lower_upperChar c : JS.lowerChar (upperChar c) = JS.lowerChar c.
Proof. destruct c as [[] [] [] [] [] [] [] []]; reflexivity. Qed.

(** X23.  [capitalize] changes at most the first character: it keeps the
    length and everything after the first character, applying it twice is
    the same as applying it once, the empty string stays empty, and the
    result equals the input up to letter case. *)
Theorem capitalize_first_only (s : string) :
  String.length (capitalize s) = String.length s
  /\ String.substring 1 (String.length s) (capitalize s)
     = String.substring 1 (String.length s) s
  /\ capitalize (capitalize s) = capitalize s
  /\ capitalize EmptyString = EmptyString
  /\ JS.toLowerCase (capitalize s) = JS.toLowerCase s.
Proof.
  destruct s as [|c rest]; [repeat split|]. cbn [capitalize].
  repeat split.
  - rewrite upperChar_idempotent. reflexivity.
  - cbn [JS.toLowerCase]. rewrite lower_upperChar. reflexivity.
Qed.

Example capitalize_sample :
  capitalize "oil_spill" = "Oil_spill" /\ capitalize "Flood" = "Flood".
Proof. vm_compute. split; reflexivity. Qed.

(** ** The slider range *)

(** X24.  Once the filters are synced to a domain, the slider shows that
    domain: its lower end is the domain's minimum, its upper end the maximum,
    and for the domain of a store the lower end is at most the upper end.
    A bound of 0 is shown as 0.  With no bound and no domain the slider
    spans the thirty days up to now. *)
Theorem sliderRange_shows_domain {RT : Runtime}
        (reports : list HazardReport.t) (d : TimeDomain)
        (filters : ActiveFilters.t) (dom : option TimeDomain) (now1 now2 : Z) :
  timeDomain reports = Some d ->
  sliderRange (syncFilters (Some d) filters) dom now1 now2 = (dmin d, dmax d)
  /\ sliderRange (initialFilters reports false true) (timeDomain reports) now1 now2
     = (dmin d, dmax d)
  /\ dmin d <= dmax d
  /\ fst (sliderRange (ActiveFilters.withTimeStart (Some 0) filters) dom now1 now2)
     = 0
  /\ sliderRange (untimed filters) None now1 now2
     = (now1 - 2592000000, now2).
Proof.
  intros Hd. split; [reflexivity|]. split.
  - unfold sliderRange, initialFilters. rewrite Hd. reflexivity.
  - split; [exact (timeDomain_ordered reports d Hd)|]. split; reflexivity.
Qed.

Lemma sliderRange_shows_domain_witness :
  timeDomain (RT := RefHost.host) [Sample.day0; Sample.day5]
  = Some {| dmin := Sample.t0; dmax := Sample.t0 + 5 * 86400000 |}
  /\ sliderRange (syncFilters (Some {| dmin := Sample.t0;
                                       dmax := Sample.t0 + 5 * 86400000 |})
                              Sample.allFilters) None 0 0
     = (Sample.t0, Sample.t0 + 5 * 86400000).
Proof.
  assert (timeDomain (RT := RefHost.host) [Sample.day0; Sample.day5]
          = Some {| dmin := Sample.t0; dmax := Sample.t0 + 5 * 86400000 |}) as H
    by (vm_compute; reflexivity).
  split; [exact H|].
  exact (proj1 (sliderRange_shows_domain (RT := RefHost.host)
                  _ _ Sample.allFilters None 0 0 H)).
Defined.

(** ** The select options *)

Lemma distinct_In x xs : In x (distinct xs) <-> In x xs.
Proof.
  induction xs as [|a xs IH]; cbn [distinct In]; [tauto|].
  rewrite filter_In, IH. destruct (String.eqb_spec x a) as [-> | N]; cbn.
  - tauto.
  - split; [tauto|]. intros [E | H]; [congruence | tauto].
Qed.

Lemma distinct_NoDup xs : NoDup (distinct xs).
Proof.
  induction xs as [|a xs IH]; cbn [distinct]; constructor.
  - rewrite filter_In, String.eqb_refl. intros [_ H]. discriminate.
  - apply NoDup_filter, IH.
Qed.

Lemma sortStrings_In x xs : In x (sortStrings xs) <-> In x xs.
Proof.
  unfold sortStrings. pose proof (StringSort.Permuted_sort xs) as P. split.
  - apply Permutation_in, Permutation_sym, P.
  - apply Permutation_in, P.
Qed.

Lemma leb_distinct_ltb a b : String.leb a b = true -> a <> b -> String.ltb a b = true.
Proof.
  unfold String.leb, String.ltb. intros H N.
  destruct (String.compare a b) eqn:E; try reflexivity; try discriminate.
  apply String.compare_eq_iff in E. congruence.
Qed.

Lemma sorted_distinct_ascending xs :
  LocallySorted (fun a b => is_true (StringOrder.leb a b)) xs -> NoDup xs ->
  LocallySorted (fun a b => String.ltb a b = true) xs.
Proof.
  induction 1 as [|a|a b l Hs IH Hab]; intros Hnd; constructor.
  - apply IH. apply NoDup_cons_iff in Hnd. tauto.
  - apply leb_distinct_ltb; [exact Hab|].
    apply NoDup_cons_iff in Hnd as [Ha _]. intros ->. apply Ha. left. reflexivity.
Qed.

Lemma sortStrings_ascending xs :
  NoDup xs -> NoDup (sortStrings xs)
              /\ LocallySorted (fun a b => String.ltb a b = true) (sortStrings xs).
Proof.
  intros Hnd. unfold sortStrings.
  assert (NoDup (StringSort.sort xs)) as Hnd'
    by (eapply Permutation_NoDup; [apply StringSort.Permuted_sort | exact Hnd]).
  split; [exact Hnd'|].
  apply sorted_distinct_ascending; [apply StringSort.LocallySorted_sort | exact Hnd'].
Qed.

(** X25.  The type options offer each hazard type of the store exactly
    once, in strictly ascending order, and nothing else; the source options
    do the same for the sources.  An empty store gives no option. *)
Theorem select_options_sorted_and_complete (reports : list HazardReport.t) :
  (forall t, In t (uniqueTypes reports)
             <-> exists r, In r reports /\ HazardReport.type r = t)
  /\ NoDup (uniqueTypes reports)
  /\ LocallySorted (fun a b => String.ltb a b = true) (uniqueTypes reports)
  /\ (forall s, In s (uniqueSources reports)
                <-> exists r, In r reports
                              /\ sourceName (HazardReport.source r) = s)
  /\ NoDup (uniqueSources reports)
  /\ LocallySorted (fun a b => String.ltb a b = true) (uniqueSources reports)
  /\ uniqueTypes [] = [] /\ uniqueSources [] = [].
Proof.
  unfold uniqueTypes, uniqueSources.
  destruct (sortStrings_ascending _ (distinct_NoDup (map HazardReport.type reports)))
    as [N1 S1].
  destruct (sortStrings_ascending _
              (distinct_NoDup
                 (map (fun r => sourceName (HazardReport.source r)) reports)))
    as [N2 S2].
  repeat split; try assumption.
  - intros H. apply sortStrings_In, distinct_In, in_map_iff in H.
    destruct H as (r & E & Hr). eauto.
  - intros (r & Hr & E). apply sortStrings_In, distinct_In, in_map_iff. eauto.
  - intros H. apply sortStrings_In, distinct_In, in_map_iff in H.
    destruct H as (r & E & Hr). eauto.
  - intros (r & Hr & E). apply sortStrings_In, distinct_In, in_map_iff. eauto.
Qed.

Example select_options_sample :
  uniqueSources [Sample.day0; Sample.day1] = ["citizen"]
  /\ uniqueTypes
       [HazardReport.mk "a" 0 0 "storm" verified sensor "x" None None None None
                        None None;
        HazardReport.mk "b" 0 0 "flood" verified sensor "x" None None None None
                        None None;
        HazardReport.mk "c" 0 0 "storm" verified sensor "x" None None None None
                        None None;
        HazardReport.mk "d" 0 0 "Flood" verified sensor "x" None None None None
                        None None]
     = ["Flood"; "flood"; "storm"].
Proof. vm_compute. split; reflexivity. Qed.

(** ** The time window *)

Lemma keep_window {RT : Runtime} filters a b r :
  a <> 0 -> b <> 0 ->
  keep (ActiveFilters.withTimeStart (Some a)
          (ActiveFilters.withTimeEnd (Some b) filters)) None r
  = keep (untimed filters) None r && inWindow a b r.
Proof.
  intros Ha Hb. unfold keep, untimed, inWindow.
  cbn [ActiveFilters.withTimeStart ActiveFilters.withTimeEnd
       ActiveFilters.hazardType ActiveFilters.status ActiveFilters.source
       ActiveFilters.timeStart ActiveFilters.timeEnd ActiveFilters.tagsQuery
       JS.truthyNumber].
  replace (a =? 0) with false by (symmetry; apply Z.eqb_neq, Ha).
  replace (b =? 0) with false by (symmetry; apply Z.eqb_neq, Hb).
  cbn [negb andb].
  repeat match goal with
         | |- (if ?c then false else _) = (if ?c then false else _) && _ =>
             destruct c; [reflexivity|]
         end.
  destruct (Date_getTime (HazardReport.timestamp r)) as [t|]; cbn [JS.lt JS.gt].
  - rewrite Z.gtb_ltb.
    destruct (Z.ltb_spec t a), (Z.leb_spec a t); try lia;
    destruct (Z.ltb_spec b t), (Z.leb_spec t b); try lia; cbn [andb];
    destruct (tagsPass (ActiveFilters.tagsQuery filters) r); reflexivity.
  - destruct (tagsPass (ActiveFilters.tagsQuery filters) r); reflexivity.
Qed.

(** X26.  With both time bounds set to non-zero instants and no cursor, the
    evaluator keeps, among the reports that pass the other rules, exactly
    those dated within the bounds, both ends included, together with the
    undated ones. *)
Theorem time_window_is_inclusive {RT : Runtime}
        (reports : list HazardReport.t) (filters : ActiveFilters.t) (a b : Z) :
  a <> 0 -> b <> 0 ->
  filteredReports reports
    (ActiveFilters.withTimeStart (Some a)
       (ActiveFilters.withTimeEnd (Some b) filters)) None
  = filter (inWindow a b) (filteredReports reports (untimed filters) None).
Proof.
  intros Ha Hb. unfold filteredReports.
  induction reports as [|r rs IH]; [reflexivity|].
  cbn [filter]. rewrite keep_window by assumption.
  destruct (keep (untimed filters) None r); cbn [andb filter]; [|exact IH].
  destruct (inWindow a b r); rewrite IH; reflexivity.
Qed.

Lemma time_window_is_inclusive_witness :
  Sample.t0 <> 0 /\ Sample.t0 + 86400000 <> 0
  /\ filteredReports (RT := RefHost.host)
       [Sample.day0; Sample.day1; Sample.undated; Sample.day5]
       (ActiveFilters.withTimeStart (Some Sample.t0)
          (ActiveFilters.withTimeEnd (Some (Sample.t0 + 86400000))
             Sample.allFilters)) None
     = [Sample.day0; Sample.day1; Sample.undated].
Proof.
  assert (Sample.t0 <> 0) as Ha by (vm_compute; discriminate).
  assert (Sample.t0 + 86400000 <> 0) as Hb by (vm_compute; discriminate).
  split; [exact Ha|]. split; [exact Hb|].
  apply (eq_trans (time_window_is_inclusive (RT := RefHost.host)
                     [Sample.day0; Sample.day1; Sample.undated; Sample.day5]
                     Sample.allFilters _ _ Ha Hb)).
  vm_compute. reflexivity.
Defined.
